(** * synkhronos/shmemarray.py: POSIX shared-memory arrays

    A shallow embedding of [shmemarray.py] together with the properties of
    its segment life cycle.  The module is a thin layer over four external
    libraries (posix_ipc, mmap, ctypes, numpy); each call the module makes
    into them is modelled by its documented behaviour on an idealised
    single-host kernel:

    - the shared-memory namespace is a finite map from names to objects,
      an object is a sequence of bytes, and there are no resource limits,
      permissions or platform restrictions on names;
    - the target is a 64-bit little-endian LP64 platform
      ([sys.maxsize = 2^63 - 1], [sizeof(long) = 8], [sizeof(wchar_t) = 4]);
    - CPython releases an object as soon as its last reference is dropped,
      and an exception escaping [__del__] is reported on [sys.stderr] and
      discarded;
    - [assert] statements are executed (the interpreter does not run with
      [-O]). *)

From Stdlib Require Import ZArith Lia Ascii String List Bool.
From stdpp Require Import base option list strings gmap fin_maps.

Open Scope string_scope.
Open Scope Z_scope.

(** ** Exceptions and the state-and-exception monad *)

(** [errno] values that posix_ipc reports as [ExistentialError]. *)
Inductive errno := EEXIST | ENOENT.

Inductive exn :=
| AssertionError
| AttributeError
| IndexError
| TypeError
| OverflowError
| ValueError (msg : string)
| OSError (msg : string)
| ExistentialError (e : errno)   (* posix_ipc.ExistentialError *)
| SIGSEGV.                       (* access through an unmapped address *)

Inductive result (A : Type) :=
| Ok (a : A)
| Raise (e : exn).
Arguments Ok {A} a.
Arguments Raise {A} e.

(** A computation over a mutable state [S]: state changes made before an
    exception is raised persist, as in Python. *)
Definition M (S A : Type) : Type := S -> result A * S.

Definition ret {S A} (a : A) : M S A := fun s => (Ok a, s).
Definition raise {S A} (e : exn) : M S A := fun s => (Raise e, s).
Definition bind {S A B} (m : M S A) (k : A -> M S B) : M S B :=
  fun s => match m s with
           | (Ok a, s') => k a s'
           | (Raise e, s') => (Raise e, s')
           end.
Definition modify {S} (f : S -> S) : M S unit := fun s => (Ok tt, f s).
Definition assert_ {S} (b : bool) : M S unit :=
  if b then ret tt else raise AssertionError.
Definition lift_result {S A} (r : result A) : M S A := fun s => (r, s).

Declare Scope py_scope.
Delimit Scope py_scope with py.
Notation "'let*' x ':=' m 'in' k" := (bind m (fun x => k))
  (at level 10, x name, m at level 100, k at level 200) : py_scope.
Notation "m ';;;' k" := (bind m (fun _ => k))
  (at level 100, k at level 200, right associativity) : py_scope.
Open Scope py_scope.

(** ** The kernel and the process *)

Record world := World {
  shm_names : gmap string nat;      (* shared-memory namespace: name -> object *)
  shm_objects : gmap nat (list Z);  (* object -> its bytes; the length is its size;
                                       objects are never reclaimed *)
  fd_table : gmap nat nat;          (* open descriptor -> object *)
  mappings : gmap nat (nat * Z);    (* live mapping -> (object, mapped length) *)
  stderr : list exn                 (* exceptions reported as unraisable *)
}.

Definition set_shm_names f w :=
  World (f (shm_names w)) (shm_objects w) (fd_table w) (mappings w) (stderr w).
Definition set_shm_objects f w :=
  World (shm_names w) (f (shm_objects w)) (fd_table w) (mappings w) (stderr w).
Definition set_fd_table f w :=
  World (shm_names w) (shm_objects w) (f (fd_table w)) (mappings w) (stderr w).
Definition set_mappings f w :=
  World (shm_names w) (shm_objects w) (fd_table w) (f (mappings w)) (stderr w).
Definition set_stderr f w :=
  World (shm_names w) (shm_objects w) (fd_table w) (mappings w) (f (stderr w)).

Definition empty_world : world := World ∅ ∅ ∅ ∅ [].

(** Size of the object behind a descriptor ([fstat]). *)
Definition fstat_size (fd : Z) : M world Z :=
  fun w =>
    match (if 0 <=? fd then fd_table w !! Z.to_nat fd else None) with
    | Some o =>
        match shm_objects w !! o with
        | Some bytes => (Ok (Z.of_nat (length bytes)), w)
        | None => (Raise (OSError "Bad file descriptor"), w)
        end
    | None => (Raise (OSError "Bad file descriptor"), w)
    end.

(** ** posix_ipc *)

Definition O_CREAT : Z := 64.
Definition O_EXCL : Z := 128.
Definition O_CREX : Z := Z.lor O_CREAT O_EXCL.

Definition has_flag (flag flags : Z) : bool := negb (Z.land flags flag =? 0).

Record SharedMemory_obj := { name : string; fd : Z }.

(** [shm_open(name, flags)]: the descriptor of the named object. *)
Definition shm_open (nm : string) (flags : Z) : M world Z :=
  fun w =>
    let new_fd := fresh (dom (fd_table w)) in
    match shm_names w !! nm with
    | Some o =>
        if has_flag O_CREAT flags && has_flag O_EXCL flags
        then (Raise (ExistentialError EEXIST), w)
        else (Ok (Z.of_nat new_fd), set_fd_table <[new_fd := o]> w)
    | None =>
        if has_flag O_CREAT flags
        then let o := fresh (dom (shm_objects w)) in
             (Ok (Z.of_nat new_fd),
              set_fd_table <[new_fd := o]>
                (set_shm_objects <[o := []]> (set_shm_names <[nm := o]> w)))
        else (Raise (ExistentialError ENOENT), w)
    end.

(** [ftruncate(fd, size)]: the object is cut or zero-extended to [size]. *)
Definition ftruncate (fd : Z) (size : Z) : M world unit :=
  fun w =>
    match (if 0 <=? fd then fd_table w !! Z.to_nat fd else None) with
    | Some o =>
        match shm_objects w !! o with
        | Some bytes =>
            (Ok tt, set_shm_objects <[o := resize (Z.to_nat size) 0 bytes]> w)
        | None => (Raise (OSError "Bad file descriptor"), w)
        end
    | None => (Raise (OSError "Bad file descriptor"), w)
    end.

(** [posix_ipc.SharedMemory(name, flags=flags, size=size)]: opens or creates
    the object and, when [size] is nonzero, resizes it with [ftruncate]
    whether it is new or was already there. *)
Definition SharedMemory (nm : string) (flags : Z) (size : Z)
  : M world SharedMemory_obj :=
  if negb (has_flag O_CREAT flags) && has_flag O_EXCL flags
  then raise (ValueError "O_EXCL must be combined with O_CREAT")
  else
    let* d := shm_open nm flags in
    (if size =? 0 then ret tt else ftruncate d size) ;;;
    ret {| name := nm; fd := d |}.

(** The [size] property of a SharedMemory object. *)
Definition SharedMemory_size (mem : SharedMemory_obj) : M world Z :=
  fstat_size (fd mem).

(** [close_fd()]: closes the descriptor; the object keeps [fd = -1]. *)
Definition SharedMemory_close_fd (mem : SharedMemory_obj)
  : M world SharedMemory_obj :=
  fun w =>
    match (if 0 <=? fd mem then fd_table w !! Z.to_nat (fd mem) else None) with
    | Some _ =>
        (Ok {| name := name mem; fd := -1 |},
         set_fd_table (delete (Z.to_nat (fd mem))) w)
    | None => (Raise (OSError "Bad file descriptor"), w)
    end.

(** [unlink()]: removes the name; the object lives on for those who have it
    mapped.  A missing name is an [ExistentialError]. *)
Definition SharedMemory_unlink (mem : SharedMemory_obj) : M world unit :=
  fun w =>
    match shm_names w !! name mem with
    | Some _ => (Ok tt, set_shm_names (delete (name mem)) w)
    | None => (Raise (ExistentialError ENOENT), w)
    end.

(** ** mmap *)

(** [mmap.mmap(fileno, length)]: a zero [length] asks for the whole file,
    and an empty file cannot be mapped. *)
Definition mmap_mmap (fileno : Z) (length : Z) : M world nat :=
  fun w =>
    match (if 0 <=? fileno then fd_table w !! Z.to_nat fileno else None) with
    | Some o =>
        match shm_objects w !! o with
        | Some bytes =>
            let st_size := Z.of_nat (List.length bytes) in
            let m := fresh (dom (mappings w)) in
            if length <? 0 then (Raise OverflowError, w)
            else if length =? 0 then
              if st_size =? 0
              then (Raise (ValueError "cannot mmap an empty file"), w)
              else (Ok m, set_mappings <[m := (o, st_size)]> w)
            else if st_size <? length
              then (Raise (ValueError "mmap length is greater than file size"), w)
              else (Ok m, set_mappings <[m := (o, length)]> w)
        | None => (Raise (OSError "Bad file descriptor"), w)
        end
    | None => (Raise (OSError "Bad file descriptor"), w)
    end.

(** [close()]: unmaps; closing twice is harmless. *)
Definition mmap_close (m : nat) : M world unit :=
  modify (set_mappings (delete m)).

(** [size()]: the current size of the mapped file. *)
Definition mmap_size (m : nat) : M world Z :=
  fun w =>
    match mappings w !! m with
    | Some (o, _) =>
        match shm_objects w !! o with
        | Some bytes => (Ok (Z.of_nat (List.length bytes)), w)
        | None => (Raise (OSError "Bad file descriptor"), w)
        end
    | None => (Raise (ValueError "mmap closed or invalid"), w)
    end.

(** ** shmemarray.py *)

Definition maxsize : Z := 2 ^ 63 - 1.   (* sys.maxsize *)

(** [address_of_buffer(buf)]: the base address of a live mapping, which the
    model identifies with the mapping itself. *)
Definition address_of_buffer (buf : nat) : M world nat :=
  fun w =>
    match mappings w !! buf with
    | Some _ => (Ok buf, w)
    | None => (Raise (ValueError "mmap closed or invalid"), w)
    end.

(** Reporting an exception that escapes a finalizer. *)
Definition unraisable (m : M world unit) : M world unit :=
  fun w =>
    match m w with
    | (Ok _, w') => (Ok tt, w')
    | (Raise e, w') => (Ok tt, set_stderr (fun log => (log ++ [e])%list) w')
    end.

Module ShmemBufferWrapper.

Record t := {
  _mem : option SharedMemory_obj;
  _map : option nat;
  _owner : bool;
  size : Z
}.

(** Attribute assignments on [self]. *)
Definition set_mem (v : option SharedMemory_obj) : M (t * world) unit :=
  modify (fun '(self, w) =>
            ({| _mem := v; _map := _map self;
                _owner := _owner self; size := size self |}, w)).
Definition set_map (v : option nat) : M (t * world) unit :=
  modify (fun '(self, w) =>
            ({| _mem := _mem self; _map := v;
                _owner := _owner self; size := size self |}, w)).
Definition set_owner (v : bool) : M (t * world) unit :=
  modify (fun '(self, w) =>
            ({| _mem := _mem self; _map := _map self;
                _owner := v; size := size self |}, w)).
Definition set_size (v : Z) : M (t * world) unit :=
  modify (fun '(self, w) =>
            ({| _mem := _mem self; _map := _map self;
                _owner := _owner self; size := v |}, w)).

(** A call into the libraries from inside a method of [self]. *)
Definition call {A} (m : M world A) : M (t * world) A :=
  fun '(self, w) => let '(r, w') := m w in (r, (self, w')).

Definition __init__ (tag : string) (size : Z) (create : bool)
  : M (t * world) unit :=
  (* default vals so __del__ doesn't fail if __init__ fails to complete *)
  set_mem None ;;;
  set_map None ;;;
  set_owner create ;;;
  set_size size ;;;
  assert_ ((0 <=? size) && (size <? maxsize)) ;;;
  let flag := nth (Nat.b2n create) [0; O_CREX] 0 in
  let* mem := call (SharedMemory tag flag size) in
  set_mem (Some mem) ;;;
  let* mem_size := call (SharedMemory_size mem) in
  let* map := call (mmap_mmap (fd mem) mem_size) in
  set_map (Some map) ;;;
  let* mem' := call (SharedMemory_close_fd mem) in
  set_mem (Some mem').

Definition get_address (self : t) : M world nat :=
  match _map self with
  | None => raise AttributeError
  | Some map =>
      let* sz := mmap_size map in
      assert_ (sz =? size self) ;;;
      address_of_buffer map
  end.

Definition __del__ (self : t) : M world unit :=
  (match _map self with
   | Some map => mmap_close map
   | None => ret tt
   end) ;;;
  match _mem self with
  | Some mem => if _owner self then SharedMemory_unlink mem else ret tt
  | None => ret tt
  end.

(** The last reference to [self] goes away: [__del__] runs as a
    finalizer. *)
Definition release (self : t) : M world unit := unraisable (__del__ self).

(** An instance on which [__init__] has not run yet. *)
Definition blank : t :=
  {| _mem := None; _map := None; _owner := false; size := 0 |}.

(** [ShmemBufferWrapper(tag, size, create)]: when [__init__] raises, the
    half-built object is released at once. *)
Definition new (tag : string) (size : Z) (create : bool) : M world t :=
  fun w =>
    match __init__ tag size create (blank, w) with
    | (Ok _, (self, w')) => (Ok self, w')
    | (Raise e, (self, w')) => (Raise e, snd (release self w'))
    end.

End ShmemBufferWrapper.

(** ** ctypes *)

Inductive ctype :=
| c_char | c_wchar
| c_byte | c_ubyte
| c_short | c_ushort
| c_int | c_uint
| c_long | c_ulong
| c_longlong | c_ulonglong
| c_float | c_double.

Global Instance ctype_eq_dec : EqDecision ctype.
Proof. solve_decision. Defined.

(** [ctypes.sizeof] of a scalar type. *)
Definition sizeof (t : ctype) : Z :=
  match t with
  | c_char | c_byte | c_ubyte => 1
  | c_short | c_ushort => 2
  | c_wchar | c_int | c_uint | c_float => 4
  | c_long | c_ulong | c_longlong | c_ulonglong | c_double => 8
  end.

(** Python values that can be stored in, or read from, an element.
    A float is carried as its IEEE 754 binary64 bit pattern. *)
Inductive pyval :=
| PyInt (z : Z)
| PyFloat (bits : Z)
| PyBytes (bs : list Z)
| PyStr (codepoints : list Z).

Global Instance pyval_eq_dec : EqDecision pyval.
Proof. solve_decision. Defined.

(** Little-endian byte strings. *)
Fixpoint le_bytes (n : nat) (z : Z) : list Z :=
  match n with
  | O => []
  | S n' => z mod 256 :: le_bytes n' (z / 256)
  end.

Fixpoint le_value (bs : list Z) : Z :=
  match bs with
  | [] => 0
  | b :: bs' => b + 256 * le_value bs'
  end.

(** Two's complement reading of an unsigned [bits]-bit value. *)
Definition to_signed (bits z : Z) : Z :=
  if z <? 2 ^ (bits - 1) then z else z - 2 ^ bits.

(** Rounding [m / 2^sh] to the nearest integer, ties to even. *)
Definition rne (m sh : Z) : Z :=
  if sh <=? 0 then Z.shiftl m (- sh)
  else
    let q := Z.shiftr m sh in
    let r := Z.land m (Z.ones sh) in
    let half := 2 ^ (sh - 1) in
    if (half <? r) || ((r =? half) && Z.odd q) then q + 1 else q.

(** [float(z)] for a Python int. *)
Definition double_of_int (z : Z) : result Z :=
  if z =? 0 then Ok 0
  else
    let a := Z.abs z in
    let L := Z.log2 a in
    let bits := (L + 1023) * 2 ^ 52 + (rne a (L - 52) - 2 ^ 52) in
    if 2047 * 2 ^ 52 <=? bits then Raise OverflowError
    else Ok ((if z <? 0 then 2 ^ 63 else 0) + bits).

(** The C conversion [(float)x]. *)
Definition single_of_double (b : Z) : Z :=
  let sign := Z.shiftr b 63 * 2 ^ 31 in
  let E := Z.land (Z.shiftr b 52) 2047 in
  let F := Z.land b (Z.ones 52) in
  if E =? 2047 then
    sign + 255 * 2 ^ 23 + (if F =? 0 then 0 else Z.lor (2 ^ 22) (Z.shiftr F 29))
  else if E =? 0 then sign
  else
    let m := 2 ^ 52 + F in
    let e := E - 1023 in
    if e <? -126 then sign + rne m (- e - 97)
    else
      let r := (e + 127) * 2 ^ 23 + (rne m 29 - 2 ^ 23) in
      if 255 * 2 ^ 23 <=? r then sign + 255 * 2 ^ 23 else sign + r.

(** The C conversion [(double)x], which is exact. *)
Definition double_of_single (b : Z) : Z :=
  let sign := Z.shiftr b 31 * 2 ^ 63 in
  let E := Z.land (Z.shiftr b 23) 255 in
  let F := Z.land b (Z.ones 23) in
  if E =? 255 then sign + 2047 * 2 ^ 52 + Z.shiftl F 29
  else if E =? 0 then
    if F =? 0 then sign
    else
      let L := Z.log2 F in
      sign + (L - 149 + 1023) * 2 ^ 52 + (Z.shiftl F (52 - L) - 2 ^ 52)
  else sign + (E - 127 + 1023) * 2 ^ 52 + Z.shiftl F 29.

Definition is_integer_type (t : ctype) : bool :=
  match t with
  | c_char | c_wchar | c_float | c_double => false
  | _ => true
  end.

Definition is_signed (t : ctype) : bool :=
  match t with
  | c_byte | c_short | c_int | c_long | c_longlong => true
  | _ => false
  end.

(** The setter of a scalar type: the bytes stored for a Python value.
    Integer types keep the low bytes of the value without an overflow
    check. *)
Definition setfunc (t : ctype) (v : pyval) : result (list Z) :=
  match t with
  | c_char =>
      match v with
      | PyBytes [b] => Ok [b]
      | PyInt z => if (0 <=? z) && (z <? 256) then Ok [z] else Raise TypeError
      | _ => Raise TypeError
      end
  | c_wchar =>
      match v with
      | PyStr [c] => Ok (le_bytes 4 c)
      | _ => Raise TypeError
      end
  | c_double =>
      match v with
      | PyFloat b => Ok (le_bytes 8 b)
      | PyInt z =>
          match double_of_int z with
          | Ok b => Ok (le_bytes 8 b)
          | Raise e => Raise e
          end
      | _ => Raise TypeError
      end
  | c_float =>
      match v with
      | PyFloat b => Ok (le_bytes 4 (single_of_double b))
      | PyInt z =>
          match double_of_int z with
          | Ok b => Ok (le_bytes 4 (single_of_double b))
          | Raise e => Raise e
          end
      | _ => Raise TypeError
      end
  | _ =>
      match v with
      | PyInt z => Ok (le_bytes (Z.to_nat (sizeof t)) z)
      | _ => Raise TypeError
      end
  end.

(** The getter of a scalar type: the Python value of stored bytes. *)
Definition getfunc (t : ctype) (bs : list Z) : pyval :=
  match t with
  | c_char => PyBytes bs
  | c_wchar => PyStr [le_value bs]
  | c_double => PyFloat (le_value bs)
  | c_float => PyFloat (double_of_single (le_value bs))
  | _ =>
      if is_signed t
      then PyInt (to_signed (8 * sizeof t) (le_value bs))
      else PyInt (le_value bs)
  end.

(** A dict literal, membership lookup and [dict.get(key, default)]. *)
Fixpoint dict_lookup {K V} `{EqDecision K} (d : list (K * V)) (k : K) : option V :=
  match d with
  | [] => None
  | (k', v) :: d' => if decide (k' = k) then Some v else dict_lookup d' k
  end.

Definition dict_get {K V} `{EqDecision K} (d : list (K * V)) (k : K) (default : V) : V :=
  match dict_lookup d k with
  | Some v => v
  | None => default
  end.

Definition typecode_to_type : list (string * ctype) :=
  [ ("c", c_char); ("u", c_wchar);
    ("b", c_byte); ("B", c_ubyte);
    ("h", c_short); ("H", c_ushort);
    ("i", c_int); ("I", c_uint);
    ("l", c_long); ("L", c_ulong);
    ("f", c_float); ("d", c_double) ].

(** What [ShmemRawArray] is given as [typecode_or_type]: a typecode or a
    ctypes scalar type. *)
Inductive typecode_or_type :=
| Typecode (s : string)
| Ctype (t : ctype).

(** [typecode_to_type.get(typecode_or_type, typecode_or_type)]: [None] when
    the result is still the str that was passed and not a ctypes type. *)
Definition resolve_type (x : typecode_or_type) : option ctype :=
  match x with
  | Typecode s => dict_lookup typecode_to_type s
  | Ctype t => Some t
  end.

(** [type_ * n]: an array type of [n] elements; [None] when [type_] is a str,
    whose repetition is another str. *)
Definition type_mul (ty : option ctype) (n : Z) : result (option (ctype * Z)) :=
  match ty with
  | Some t =>
      if n <? 0 then Raise (ValueError "Array length must be >= 0")
      else if maxsize / sizeof t <? n then Raise OverflowError
      else Ok (Some (t, n))
  | None => Ok None
  end.

(** [ctypes.sizeof(type_)] *)
Definition ctypes_sizeof (ty : option (ctype * Z)) : result Z :=
  match ty with
  | Some (t, n) => Ok (n * sizeof t)
  | None => Raise TypeError
  end.

(** An array instance placed on mapped memory. *)
Record ctypes_array := {
  a_type : ctype;
  a_length : Z;
  a_address : nat;
  _buffer : option ShmemBufferWrapper.t
}.

(** Memory access through an address. *)
Definition mem_write (addr : nat) (off : Z) (bs : list Z) : M world unit :=
  fun w =>
    match mappings w !! addr with
    | Some (o, len) =>
        match shm_objects w !! o with
        | Some bytes =>
            let n := Z.of_nat (List.length bs) in
            if (0 <=? off) && (off + n <=? Z.min len (Z.of_nat (List.length bytes)))
            then (Ok tt,
                  set_shm_objects
                    <[o := (take (Z.to_nat off) bytes ++ bs
                            ++ drop (Z.to_nat (off + n)) bytes)%list]> w)
            else (Raise SIGSEGV, w)
        | None => (Raise SIGSEGV, w)
        end
    | None => (Raise SIGSEGV, w)
    end.

Definition mem_read (addr : nat) (off : Z) (n : Z) : M world (list Z) :=
  fun w =>
    match mappings w !! addr with
    | Some (o, len) =>
        match shm_objects w !! o with
        | Some bytes =>
            if (0 <=? off) && (off + n <=? Z.min len (Z.of_nat (List.length bytes)))
            then (Ok (take (Z.to_nat n) (drop (Z.to_nat off) bytes)), w)
            else (Raise SIGSEGV, w)
        | None => (Raise SIGSEGV, w)
        end
    | None => (Raise SIGSEGV, w)
    end.

(** [type_.from_address(address)] *)
Definition from_address (ty : option (ctype * Z)) (address : nat) : result ctypes_array :=
  match ty with
  | Some (t, n) =>
      Ok {| a_type := t; a_length := n; a_address := address; _buffer := None |}
  | None => Raise AttributeError
  end.

Definition set_buffer (obj : ctypes_array) (b : ShmemBufferWrapper.t) : ctypes_array :=
  {| a_type := a_type obj; a_length := a_length obj;
     a_address := a_address obj; _buffer := Some b |}.

(** The array goes away and with it the reference it holds in [_buffer]. *)
Definition ctypes_array_release (obj : ctypes_array) : M world unit :=
  match _buffer obj with
  | Some buffer => ShmemBufferWrapper.release buffer
  | None => ret tt
  end.

(** [obj[i] = v] *)
Definition Array_setitem (obj : ctypes_array) (i : Z) (v : pyval) : M world unit :=
  let i := if i <? 0 then i + a_length obj else i in
  if (i <? 0) || (a_length obj <=? i) then raise IndexError
  else
    let* bs := lift_result (setfunc (a_type obj) v) in
    mem_write (a_address obj) (i * sizeof (a_type obj)) bs.

(** [obj[i]] *)
Definition Array_getitem (obj : ctypes_array) (i : Z) : M world pyval :=
  let i := if i <? 0 then i + a_length obj else i in
  if (i <? 0) || (a_length obj <=? i) then raise IndexError
  else
    let* bs := mem_read (a_address obj) (i * sizeof (a_type obj)) (sizeof (a_type obj)) in
    ret (getfunc (a_type obj) bs).

(** [obj.__init__( *args )]: the arguments are assigned in order, starting
    at index [i]. *)
Fixpoint Array_init_from (obj : ctypes_array) (i : Z) (args : list pyval) : M world unit :=
  match args with
  | [] => ret tt
  | v :: args' => Array_setitem obj i v ;;; Array_init_from obj (i + 1) args'
  end.

Definition Array_init (obj : ctypes_array) (args : list pyval) : M world unit :=
  Array_init_from obj 0 args.

(** ** shmemarray.py, continued *)

Definition ascii_letters : string :=
  "abcdefghijklmnopqrstuvwxyzABCDEFGHIJKLMNOPQRSTUVWXYZ".
Definition digits : string := "0123456789".

(** [frozenset("/-_. %s%s" % (ascii_letters, digits))] *)
Definition valid_chars : list ascii :=
  list_ascii_of_string ("/-_. " ++ ascii_letters ++ digits).

(** [frozenset(s).issubset(chars)] *)
Definition issubset (s : string) (chars : list ascii) : bool :=
  forallb (fun c => existsb (Ascii.eqb c) chars) (list_ascii_of_string s).

(** The tag check and the leading slash of [ShmemRawArray], lines 76-78:
    the name under which the segment is looked up. *)
Definition normalized_tag (tag : string) : M world string :=
  assert_ (issubset tag valid_chars) ;;;
  match tag with
  | EmptyString => raise IndexError
  | String c _ => if negb (Ascii.eqb c "/") then ret ("/" ++ tag) else ret tag
  end.

Inductive size_or_initializer :=
| SizeInt (n : Z)
| Initializer (values : list pyval).

(** While [m] runs, the frame holds the only reference to an object whose
    finalizer is [finalizer]: an exception unwinds the frame and the object
    is released. *)
Definition holding {A} (finalizer : M world unit) (m : M world A) : M world A :=
  fun w =>
    match m w with
    | (Ok a, w') => (Ok a, w')
    | (Raise e, w') => (Raise e, snd (finalizer w'))
    end.

Definition ShmemRawArray (typecode_or_type : typecode_or_type)
    (size_or_initializer : size_or_initializer) (tag : string) (create : bool)
  : M world ctypes_array :=
  let* tag := normalized_tag tag in
  let type_ := resolve_type typecode_or_type in
  let* type_ :=
    lift_result
      match size_or_initializer with
      | SizeInt n => type_mul type_ n
      | Initializer values => type_mul type_ (Z.of_nat (List.length values))
      end in
  let* nbytes := lift_result (ctypes_sizeof type_) in
  let* buffer := ShmemBufferWrapper.new tag nbytes create in
  holding (ShmemBufferWrapper.release buffer)
    (let* address := ShmemBufferWrapper.get_address buffer in
     let* obj := lift_result (from_address type_ address) in
     let obj := set_buffer obj buffer in
     match size_or_initializer with
     | SizeInt _ => ret tt
     | Initializer values => Array_init obj values
     end ;;;
     ret obj).

(** ** numpy *)

(** A dtype as a dict key: its name as a str, or the [np.dtype] object of
    that name. *)
Inductive dtype_key :=
| DtypeName (s : string)
| DtypeObj (s : string).

Global Instance dtype_key_eq_dec : EqDecision dtype_key.
Proof. solve_decision. Defined.

Definition NP_TO_C_TYPE : list (dtype_key * option ctype) :=
  [ (DtypeName "float64", Some c_double); (DtypeObj "float64", Some c_double);
    (DtypeName "float32", Some c_float); (DtypeObj "float32", Some c_float);
    (DtypeName "float16", None); (DtypeObj "float16", None);
    (DtypeName "int8", Some c_byte); (DtypeObj "int8", Some c_byte);
    (DtypeName "int16", Some c_short); (DtypeObj "int16", Some c_short);
    (DtypeName "int32", Some c_int); (DtypeObj "int32", Some c_int);
    (DtypeName "int64", Some c_longlong); (DtypeObj "int64", Some c_longlong);
    (DtypeName "uint8", Some c_ubyte); (DtypeObj "uint8", Some c_ubyte);
    (DtypeName "uint16", Some c_ushort); (DtypeObj "uint16", Some c_ushort);
    (DtypeName "uint32", Some c_uint); (DtypeObj "uint32", Some c_uint);
    (DtypeName "uint64", Some c_ulonglong); (DtypeObj "uint64", Some c_ulonglong) ].

Definition product (dims : list Z) : Z := fold_right Z.mul 1 dims.

(** A 64-bit signed integer that silently wraps around. *)
Definition wrap64 (z : Z) : Z := (z + 2 ^ 63) mod 2 ^ 64 - 2 ^ 63.

(** [int(np.prod(shape))] for a shape of machine integers: the reduction is
    carried out in int64. *)
Definition np_prod (shape : list Z) : Z := wrap64 (product shape).

(** An array view: the ctypes array whose memory it shares, and its shape. *)
Record ndarray := { nd_base : ctypes_array; nd_shape : list Z }.

(** [np.ctypeslib.as_array(obj)]: a flat view of the same memory. *)
Definition as_array (obj : ctypes_array) : ndarray :=
  {| nd_base := obj; nd_shape := [a_length obj] |}.

(** [a.reshape(newshape)]: at most one dimension may be negative and is then
    inferred; the sizes must agree exactly. *)
Definition reshape (a : ndarray) (newshape : list Z) : result ndarray :=
  let s_original := product (nd_shape a) in
  let s_known := product (filter (fun d => 0 <= d) newshape) in
  match List.length (filter (fun d => d < 0) newshape) with
  | O =>
      if s_original =? s_known
      then Ok {| nd_base := nd_base a; nd_shape := newshape |}
      else Raise (ValueError "cannot reshape array")
  | S O =>
      if (s_known =? 0) || negb (s_original mod s_known =? 0)
      then Raise (ValueError "cannot reshape array")
      else Ok {| nd_base := nd_base a;
                 nd_shape := (fun d => if d <? 0 then s_original / s_known else d)
                             <$> newshape |}
  | _ => Raise (ValueError "can only specify one unknown dimension")
  end.

Definition NpShmemArray (dtype : dtype_key) (shape : list Z) (tag : string)
    (create : bool) : M world ndarray :=
  let ctype := dict_get NP_TO_C_TYPE dtype None in
  match ctype with
  | None => raise (ValueError "Unsupported numpy dtype: ")
  | Some ctype =>
      let* shmem := ShmemRawArray (Ctype ctype) (SizeInt (np_prod shape)) tag create in
      holding (ctypes_array_release shmem)
        (lift_result (reshape (as_array shmem) shape))
  end.

(** ** Auxiliary definitions for the properties *)

(** The error names of the specification, as the exceptions that carry them. *)
Definition AlreadyExists : exn := ExistentialError EEXIST.
Definition NotFound : exn := ExistentialError ENOENT.
Definition InvalidTag : exn := AssertionError.
Definition SizeMismatch : exn := AssertionError.
Definition UnsupportedDType : exn := ValueError "Unsupported numpy dtype: ".

(** [(0, posix_ipc.O_CREX)[create]] *)
Definition flag_of (create : bool) : Z := nth (Nat.b2n create) [0; O_CREX] 0.

Definition handle (mem : option SharedMemory_obj) (map : option nat)
    (owner : bool) (sz : Z) : ShmemBufferWrapper.t :=
  {| ShmemBufferWrapper._mem := mem; ShmemBufferWrapper._map := map;
     ShmemBufferWrapper._owner := owner; ShmemBufferWrapper.size := sz |}.

(** The number of elements asked for. *)
Definition count_of (x : size_or_initializer) : Z :=
  match x with
  | SizeInt n => n
  | Initializer values => Z.of_nat (List.length values)
  end.

(** Two states with the same names, the same mappings and objects of the
    same sizes: they differ at most in the bytes the objects hold. *)
Definition same_layout (w w' : world) : Prop :=
  shm_names w' = shm_names w
  /\ mappings w' = mappings w
  /\ fd_table w' = fd_table w
  /\ stderr w' = stderr w
  /\ forall o, length <$> shm_objects w' !! o = length <$> shm_objects w !! o.

(** What an integer element type makes of a Python int: the value reduced
    modulo [2^bits], read in two's complement when the type is signed. *)
Definition int_wrap (t : ctype) (z : Z) : Z :=
  if is_signed t
  then to_signed (8 * sizeof t) (z mod 2 ^ (8 * sizeof t))
  else z mod 2 ^ (8 * sizeof t).

(** The values an integer element type holds without loss. *)
Definition representable (t : ctype) (z : Z) : Prop :=
  if is_signed t
  then - 2 ^ (8 * sizeof t - 1) <= z < 2 ^ (8 * sizeof t - 1)
  else 0 <= z < 2 ^ (8 * sizeof t).

(** A computation that does not raise [e0], whatever the state. *)
Definition never_raises {S A} (e0 : exn) (m : M S A) : Prop :=
  forall s, fst (m s) <> Raise e0.

(** The tag alphabet in the words of the specification: ASCII letters,
    digits, and the five characters slash, hyphen, underscore, dot and
    space. *)
Definition is_tag_char (c : ascii) : bool :=
  let n := nat_of_ascii c in
  ((65 <=? n) && (n <=? 90))%nat || ((97 <=? n) && (n <=? 122))%nat
  || ((48 <=? n) && (n <=? 57))%nat
  || Ascii.eqb c "/" || Ascii.eqb c "-" || Ascii.eqb c "_"
  || Ascii.eqb c "." || Ascii.eqb c " ".

Definition starts_with_slash (tag : string) : bool :=
  match tag with
  | String c _ => Ascii.eqb c "/"
  | EmptyString => false
  end.

(** A state in which a segment of two bytes is registered as [/seg]. *)
Definition world_with_segment : world :=
  World {[ "/seg" := 0%nat ]} {[ 0%nat := [0; 0] ]} ∅ ∅ [].

(** The bit patterns of the doubles 1.0, 2.0, 3.0 and 4.0. *)
Definition weights : list pyval :=
  [PyFloat 0x3FF0000000000000; PyFloat 0x4000000000000000;
   PyFloat 0x4008000000000000; PyFloat 0x4010000000000000].

(** The exceptions that would betray a fault of the module itself: an access
    outside mapped memory, or the use of an attribute that was never set. *)
Definition fault (e : exn) : Prop := e = SIGSEGV \/ e = AttributeError.

(** The array of [n] elements of type [t] that [ShmemRawArray] returns for
    the segment [nm] mapped at [m]. *)
Definition array_on (t : ctype) (n : Z) (m : nat) (nm : string) (owner : bool)
  : ctypes_array :=
  {| a_type := t; a_length := n; a_address := m;
     _buffer := Some (handle (Some {| name := nm; fd := -1 |}) (Some m) owner
                        (n * sizeof t)) |}.

(** * Properties *)

Import ShmemBufferWrapper.

Ltac wsimpl :=
  unfold set_shm_names, set_shm_objects, set_fd_table, set_mappings, set_stderr in *;
  cbn [shm_names shm_objects fd_table mappings stderr name fd fst snd] in *.

Lemma fd_lookup (w : world) (d : nat) :
  (if 0 <=? Z.of_nat d then fd_table w !! Z.to_nat (Z.of_nat d) else None)
  = fd_table w !! d.
Proof.
  rewrite Nat2Z.id. destruct (Z.leb_spec 0 (Z.of_nat d)); [done | lia].
Qed.

Lemma in_range_true sz : 0 <= sz < maxsize -> (0 <=? sz) && (sz <? maxsize) = true.
Proof. intros. apply andb_true_iff; split; [apply Z.leb_le | apply Z.ltb_lt]; lia. Qed.

Lemma in_range_false sz : ~ (0 <= sz < maxsize) -> (0 <=? sz) && (sz <? maxsize) = false.
Proof.
  intros. apply andb_false_iff.
  destruct (Z.leb_spec 0 sz); [right | by left]. apply Z.ltb_ge. lia.
Qed.

Lemma flag_of_true : flag_of true = O_CREX.
Proof. reflexivity. Qed.
Lemma flag_of_false : flag_of false = 0.
Proof. reflexivity. Qed.

(** ** The library calls, case by case *)

Lemma ftruncate_ok d sz w o bytes :
  fd_table w !! d = Some o -> shm_objects w !! o = Some bytes ->
  ftruncate (Z.of_nat d) sz w
  = (Ok tt, set_shm_objects <[o := resize (Z.to_nat sz) 0 bytes]> w).
Proof. intros Hd Ho. unfold ftruncate. by rewrite fd_lookup, Hd, Ho. Qed.

Lemma fstat_size_ok d w o bytes :
  fd_table w !! d = Some o -> shm_objects w !! o = Some bytes ->
  fstat_size (Z.of_nat d) w = (Ok (Z.of_nat (length bytes)), w).
Proof. intros Hd Ho. unfold fstat_size. by rewrite fd_lookup, Hd, Ho. Qed.

Lemma mmap_mmap_ok d w o bytes :
  fd_table w !! d = Some o -> shm_objects w !! o = Some bytes -> bytes <> [] ->
  let m := fresh (dom (mappings w)) in
  mmap_mmap (Z.of_nat d) (Z.of_nat (length bytes)) w
  = (Ok m, set_mappings <[m := (o, Z.of_nat (length bytes))]> w).
Proof.
  intros Hd Ho Hne m. unfold mmap_mmap. rewrite fd_lookup, Hd, Ho.
  destruct (Z.ltb_spec (Z.of_nat (length bytes)) 0); [lia|].
  destruct (Z.eqb_spec (Z.of_nat (length bytes)) 0) as [Hz|_].
  { destruct bytes; [done | simpl in Hz; lia]. }
  by rewrite Z.ltb_irrefl.
Qed.

Lemma mmap_mmap_empty d w o :
  fd_table w !! d = Some o -> shm_objects w !! o = Some [] ->
  mmap_mmap (Z.of_nat d) 0 w = (Raise (ValueError "cannot mmap an empty file"), w).
Proof. intros Hd Ho. unfold mmap_mmap. by rewrite fd_lookup, Hd, Ho. Qed.

Lemma close_fd_ok nm d w o :
  fd_table w !! d = Some o ->
  SharedMemory_close_fd {| name := nm; fd := Z.of_nat d |} w
  = (Ok {| name := nm; fd := -1 |}, set_fd_table (delete d) w).
Proof.
  intros Hd. unfold SharedMemory_close_fd. cbn [fd name].
  by rewrite fd_lookup, Hd, Nat2Z.id.
Qed.

Lemma SharedMemory_create_exists tag sz w o :
  shm_names w !! tag = Some o ->
  SharedMemory tag O_CREX sz w = (Raise (ExistentialError EEXIST), w).
Proof. intros Hn. unfold SharedMemory, shm_open, bind. simpl. by rewrite Hn. Qed.

Lemma SharedMemory_open_missing tag sz w :
  shm_names w !! tag = None ->
  SharedMemory tag 0 sz w = (Raise (ExistentialError ENOENT), w).
Proof. intros Hn. unfold SharedMemory, shm_open, bind. simpl. by rewrite Hn. Qed.

Lemma SharedMemory_create_fresh tag sz w :
  shm_names w !! tag = None ->
  let d := fresh (dom (fd_table w)) in
  let o := fresh (dom (shm_objects w)) in
  SharedMemory tag O_CREX sz w
  = (Ok {| name := tag; fd := Z.of_nat d |},
     World (<[tag := o]> (shm_names w))
           (<[o := if sz =? 0 then [] else replicate (Z.to_nat sz) 0]> (shm_objects w))
           (<[d := o]> (fd_table w)) (mappings w) (stderr w)).
Proof.
  intros Hn d o. unfold SharedMemory, shm_open, bind, ret. simpl. rewrite Hn. simpl.
  destruct (sz =? 0); [done|].
  erewrite ftruncate_ok; wsimpl; [| apply lookup_insert_eq | apply lookup_insert_eq].
  by rewrite insert_insert_eq, resize_nil.
Qed.

Lemma SharedMemory_open_existing tag sz w o bytes :
  shm_names w !! tag = Some o -> shm_objects w !! o = Some bytes ->
  let d := fresh (dom (fd_table w)) in
  SharedMemory tag 0 sz w
  = (Ok {| name := tag; fd := Z.of_nat d |},
     World (shm_names w)
           (if sz =? 0 then shm_objects w
            else <[o := resize (Z.to_nat sz) 0 bytes]> (shm_objects w))
           (<[d := o]> (fd_table w)) (mappings w) (stderr w)).
Proof.
  intros Hn Ho d. unfold SharedMemory, shm_open, bind, ret. simpl. rewrite Hn. simpl.
  destruct (sz =? 0); [done|].
  erewrite ftruncate_ok; wsimpl; [done | apply lookup_insert_eq | done].
Qed.

(** ** The constructor, case by case *)

(** [new] with the state of [self] threaded by hand. *)
Lemma new_unfold tag sz create w :
  new tag sz create w =
    if (0 <=? sz) && (sz <? maxsize) then
      match SharedMemory tag (flag_of create) sz w with
      | (Raise e, w1) => (Raise e, w1)
      | (Ok mem, w1) =>
          match SharedMemory_size mem w1 with
          | (Raise e, w2) =>
              (Raise e, snd (release (handle (Some mem) None create sz) w2))
          | (Ok n, w2) =>
              match mmap_mmap (fd mem) n w2 with
              | (Raise e, w3) =>
                  (Raise e, snd (release (handle (Some mem) None create sz) w3))
              | (Ok m, w3) =>
                  match SharedMemory_close_fd mem w3 with
                  | (Raise e, w4) =>
                      (Raise e,
                       snd (release (handle (Some mem) (Some m) create sz) w4))
                  | (Ok mem', w4) =>
                      (Ok (handle (Some mem') (Some m) create sz), w4)
                  end
              end
          end
      end
    else (Raise AssertionError, w).
Proof.
  unfold new, __init__, blank, bind, assert_, call, set_mem, set_map, set_owner,
    set_size, modify, flag_of, handle.
  cbn [_mem _map _owner size].
  destruct ((0 <=? sz) && (sz <? maxsize)); simpl.
  - destruct (SharedMemory _ _ _ w) as [[mem|e] w1]; simpl.
    + destruct (SharedMemory_size mem w1) as [[n|e] w2]; simpl; [|done].
      destruct (mmap_mmap (fd mem) n w2) as [[m|e] w3]; simpl; [|done].
      destruct (SharedMemory_close_fd mem w3) as [[mem'|e] w4]; simpl; done.
    + unfold release, unraisable, __del__, bind, ret; simpl. by destruct w1.
  - unfold release, unraisable, __del__, bind, ret, raise; simpl. by destruct w.
Qed.

Lemma new_out_of_range tag sz create w :
  ~ (0 <= sz < maxsize) -> new tag sz create w = (Raise AssertionError, w).
Proof. intros. by rewrite new_unfold, in_range_false. Qed.

Lemma new_create_exists tag sz w o :
  0 <= sz < maxsize -> shm_names w !! tag = Some o ->
  new tag sz true w = (Raise (ExistentialError EEXIST), w).
Proof.
  intros Hr Hn. rewrite new_unfold, in_range_true, flag_of_true by done.
  by erewrite SharedMemory_create_exists.
Qed.

Lemma new_open_missing tag sz w :
  0 <= sz < maxsize -> shm_names w !! tag = None ->
  new tag sz false w = (Raise (ExistentialError ENOENT), w).
Proof.
  intros Hr Hn. rewrite new_unfold, in_range_true, flag_of_false by done.
  by rewrite SharedMemory_open_missing.
Qed.

Lemma new_create_fresh tag sz w :
  0 < sz < maxsize -> shm_names w !! tag = None ->
  let o := fresh (dom (shm_objects w)) in
  let m := fresh (dom (mappings w)) in
  new tag sz true w =
    (Ok (handle (Some {| name := tag; fd := -1 |}) (Some m) true sz),
     World (<[tag := o]> (shm_names w))
           (<[o := replicate (Z.to_nat sz) 0]> (shm_objects w))
           (fd_table w)
           (<[m := (o, sz)]> (mappings w))
           (stderr w)).
Proof.
  intros Hr Hn o m. rewrite new_unfold, in_range_true, flag_of_true by lia.
  rewrite SharedMemory_create_fresh by done.
  destruct (Z.eqb_spec sz 0) as [|_]; [lia|].
  unfold SharedMemory_size. cbn [fd].
  erewrite fstat_size_ok; wsimpl; [| apply lookup_insert_eq | apply lookup_insert_eq].
  erewrite mmap_mmap_ok; wsimpl; [| apply lookup_insert_eq | apply lookup_insert_eq |].
  2:{ intros E. apply (f_equal length) in E. rewrite length_replicate in E. simpl in E. lia. }
  erewrite close_fd_ok; wsimpl; [| apply lookup_insert_eq].
  rewrite length_replicate, Z2Nat.id by lia.
  rewrite delete_insert_id. 2:{ apply not_elem_of_dom, is_fresh. }
  done.
Qed.

Lemma new_create_fresh_zero tag w :
  shm_names w !! tag = None ->
  let d := fresh (dom (fd_table w)) in
  let o := fresh (dom (shm_objects w)) in
  new tag 0 true w =
    (Raise (ValueError "cannot mmap an empty file"),
     World (shm_names w) (<[o := []]> (shm_objects w))
           (<[d := o]> (fd_table w)) (mappings w) (stderr w)).
Proof.
  intros Hn d o. rewrite new_unfold, flag_of_true.
  replace ((0 <=? 0) && (0 <? maxsize)) with true by reflexivity.
  rewrite SharedMemory_create_fresh by done. rewrite Z.eqb_refl.
  unfold SharedMemory_size. cbn [fd].
  erewrite fstat_size_ok; wsimpl; [| apply lookup_insert_eq | apply lookup_insert_eq].
  cbn [length Z.of_nat].
  erewrite mmap_mmap_empty; wsimpl; [| apply lookup_insert_eq | apply lookup_insert_eq].
  unfold release, unraisable, __del__, handle, bind, ret, SharedMemory_unlink.
  cbn [_map _mem _owner name]. wsimpl. rewrite lookup_insert_eq. wsimpl.
  by rewrite delete_insert_id.
Qed.

Lemma new_open_existing tag sz w o bytes :
  0 < sz < maxsize ->
  shm_names w !! tag = Some o -> shm_objects w !! o = Some bytes ->
  let m := fresh (dom (mappings w)) in
  new tag sz false w =
    (Ok (handle (Some {| name := tag; fd := -1 |}) (Some m) false sz),
     World (shm_names w)
           (<[o := resize (Z.to_nat sz) 0 bytes]> (shm_objects w))
           (fd_table w)
           (<[m := (o, sz)]> (mappings w))
           (stderr w)).
Proof.
  intros Hr Hn Ho m. rewrite new_unfold, in_range_true, flag_of_false by lia.
  erewrite SharedMemory_open_existing by done.
  destruct (Z.eqb_spec sz 0) as [|_]; [lia|].
  unfold SharedMemory_size. cbn [fd].
  erewrite fstat_size_ok; wsimpl; [| apply lookup_insert_eq | apply lookup_insert_eq].
  erewrite mmap_mmap_ok; wsimpl; [| apply lookup_insert_eq | apply lookup_insert_eq |].
  2:{ intros E. apply (f_equal length) in E. rewrite length_resize in E. simpl in E. lia. }
  erewrite close_fd_ok; wsimpl; [| apply lookup_insert_eq].
  rewrite length_resize, Z2Nat.id by lia.
  rewrite delete_insert_id. 2:{ apply not_elem_of_dom, is_fresh. }
  done.
Qed.

(** ** The finalizer *)

Lemma del_full mem m owner sz w :
  __del__ (handle (Some mem) (Some m) owner sz) w =
    (if owner && bool_decide (shm_names w !! name mem = None)
     then Raise (ExistentialError ENOENT) else Ok tt,
     World (if owner then delete (name mem) (shm_names w) else shm_names w)
           (shm_objects w) (fd_table w) (delete m (mappings w)) (stderr w)).
Proof.
  unfold __del__, handle, bind, ret, mmap_close, modify, SharedMemory_unlink.
  cbn [_map _mem _owner]. wsimpl. destruct owner; cbn [andb]; [|done].
  destruct (shm_names w !! name mem) eqn:Hn; wsimpl; rewrite Hn.
  - by rewrite bool_decide_eq_false_2.
  - rewrite bool_decide_eq_true_2 by done. by rewrite (delete_id (shm_names w)).
Qed.

Lemma release_full mem m owner sz w :
  release (handle (Some mem) (Some m) owner sz) w =
    (Ok tt,
     World (if owner then delete (name mem) (shm_names w) else shm_names w)
           (shm_objects w) (fd_table w) (delete m (mappings w))
           (if owner && bool_decide (shm_names w !! name mem = None)
            then (stderr w ++ [ExistentialError ENOENT])%list else stderr w)).
Proof.
  unfold release, unraisable. rewrite del_full.
  by destruct (owner && bool_decide _).
Qed.

(** ** What a successful construction establishes *)

Lemma SharedMemory_ok_inv tag flags sz w mem w1 :
  SharedMemory tag flags sz w = (Ok mem, w1) ->
  exists d o,
    mem = {| name := tag; fd := Z.of_nat d |}
    /\ fd_table w1 !! d = Some o
    /\ shm_names w1 !! tag = Some o
    /\ (sz <> 0 -> exists bytes,
          shm_objects w1 !! o = Some bytes /\ length bytes = Z.to_nat sz).
Proof.
  unfold SharedMemory, shm_open, bind, ret, raise, ftruncate. intros H.
  destruct (negb _ && _); [done|].
  destruct (shm_names w !! tag) as [o|] eqn:Hn.
  - destruct (has_flag O_CREAT flags && has_flag O_EXCL flags); [done|].
    exists (fresh (dom (fd_table w))), o.
    destruct (Z.eqb_spec sz 0) as [->|Hz].
    + simplify_eq. wsimpl. rewrite lookup_insert_eq. done.
    + rewrite fd_lookup in H. wsimpl. rewrite lookup_insert_eq in H.
      destruct (shm_objects w !! o) as [bytes|] eqn:Ho; [|done].
      simplify_eq. wsimpl. rewrite !lookup_insert_eq. split_and!; try done.
      intros _. exists (resize (Z.to_nat sz) 0 bytes). by rewrite length_resize.
  - destruct (has_flag O_CREAT flags); [|done].
    exists (fresh (dom (fd_table w))), (fresh (dom (shm_objects w))).
    destruct (Z.eqb_spec sz 0) as [->|Hz].
    + simplify_eq. wsimpl. rewrite !lookup_insert_eq. done.
    + rewrite fd_lookup in H. wsimpl. rewrite !lookup_insert_eq in H.
      simplify_eq. wsimpl. rewrite !lookup_insert_eq. split_and!; try done.
      intros _. eexists. split; [done|]. by rewrite length_resize.
Qed.

Lemma fstat_size_ok_inv d n w w2 :
  fstat_size (Z.of_nat d) w = (Ok n, w2) ->
  w2 = w /\ exists o bytes,
    fd_table w !! d = Some o /\ shm_objects w !! o = Some bytes
    /\ n = Z.of_nat (length bytes).
Proof.
  unfold fstat_size. rewrite fd_lookup. intros H.
  destruct (fd_table w !! d) as [o|]; [|done].
  destruct (shm_objects w !! o) as [bytes|] eqn:Ho; [|done].
  simplify_eq. eauto 10.
Qed.

Lemma mmap_mmap_ok_inv d n w m w3 :
  mmap_mmap (Z.of_nat d) n w = (Ok m, w3) ->
  exists o bytes,
    fd_table w !! d = Some o /\ shm_objects w !! o = Some bytes
    /\ bytes <> [] /\ n <= Z.of_nat (length bytes)
    /\ w3 = set_mappings
              <[m := (o, if n =? 0 then Z.of_nat (length bytes) else n)]> w.
Proof.
  unfold mmap_mmap. rewrite fd_lookup. intros H.
  destruct (fd_table w !! d) as [o|]; [|done].
  destruct (shm_objects w !! o) as [bytes|] eqn:Ho; [|done].
  exists o, bytes. destruct (Z.ltb_spec n 0); [done|].
  destruct (Z.eqb_spec n 0) as [->|Hn].
  - destruct (Z.eqb_spec (Z.of_nat (length bytes)) 0); [done|].
    simplify_eq. split_and!; try done; [|lia]. by intros ->.
  - destruct (Z.ltb_spec (Z.of_nat (length bytes)) n); [done|].
    simplify_eq. split_and!; try done. intros ->. simpl in *. lia.
Qed.

Lemma close_fd_ok_inv nm d w mem' w4 :
  SharedMemory_close_fd {| name := nm; fd := Z.of_nat d |} w = (Ok mem', w4) ->
  mem' = {| name := nm; fd := -1 |} /\ w4 = set_fd_table (delete d) w.
Proof.
  unfold SharedMemory_close_fd. cbn [fd name]. rewrite fd_lookup, Nat2Z.id.
  intros H. destruct (fd_table w !! d); by simplify_eq.
Qed.

Lemma new_ok_inv tag sz create w h w' :
  new tag sz create w = (Ok h, w') ->
  exists m o bytes,
    h = handle (Some {| name := tag; fd := -1 |}) (Some m) create sz
    /\ 0 <= sz < maxsize
    /\ shm_names w' !! tag = Some o
    /\ shm_objects w' !! o = Some bytes
    /\ mappings w' !! m = Some (o, Z.of_nat (length bytes))
    /\ bytes <> []
    /\ (sz <> 0 -> Z.of_nat (length bytes) = sz).
Proof.
  rewrite new_unfold. intros H.
  destruct (Z.leb_spec 0 sz) as [Hlo|]; [|done].
  destruct (Z.ltb_spec sz maxsize) as [Hhi|]; [|done].
  cbn [andb] in H.
  destruct (SharedMemory _ _ _ w) as [[mem|e] w1] eqn:E1; [|done].
  apply SharedMemory_ok_inv in E1 as (d & o & -> & Hd & Hname & Hsz).
  unfold SharedMemory_size in H. cbn [fd] in H.
  destruct (fstat_size _ w1) as [[n|e] w2] eqn:E2; [|done].
  apply fstat_size_ok_inv in E2 as (-> & o' & bytes & Hd' & Ho & ->).
  assert (o' = o) as -> by congruence.
  destruct (mmap_mmap _ _ w1) as [[m|e] w3] eqn:E3; [|done].
  apply mmap_mmap_ok_inv in E3 as (o' & bytes' & Hd'' & Ho' & Hne & _ & ->).
  assert (o' = o) as -> by congruence. assert (bytes' = bytes) as -> by congruence.
  destruct (SharedMemory_close_fd _ _) as [[mem'|e] w4] eqn:E4; [|done].
  apply close_fd_ok_inv in E4 as [-> ->]. simplify_eq.
  exists m, o, bytes. wsimpl. rewrite lookup_insert_eq.
  assert (Z.of_nat (length bytes) <> 0) by (destruct bytes; [done | simpl; lia]).
  destruct (Z.eqb_spec (Z.of_nat (length bytes)) 0); [done|].
  split_and!; try done. intros Hz.
  destruct (Hsz Hz) as (b & Hb & Hl). assert (b = bytes) as -> by congruence. lia.
Qed.

(** ** Segment handles: creation, opening and teardown *)

(** C1. Constructing a handle with the creator flag set asks for exclusive
    creation: it makes the segment when the name is free and fails with
    [AlreadyExists] when the name is present.  Constructing it with the flag
    unset opens the segment of that name and fails with [NotFound] when the
    name is absent, in particular after the owner of a segment has been
    released and has unlinked it.  In the failure cases nothing is returned
    and the kernel and the process are left as they were. *)
Theorem handle_creation_and_opening_errors (tag : string) (sz : Z) (w : world) :
  0 <= sz < maxsize ->
  flag_of true = O_CREX
  /\ (is_Some (shm_names w !! tag) ->
      new tag sz true w = (Raise AlreadyExists, w))
  /\ (shm_names w !! tag = None ->
      new tag sz false w = (Raise NotFound, w))
  /\ (shm_names w !! tag = None -> sz <> 0 ->
      exists creator w1,
        new tag sz true w = (Ok creator, w1)
        /\ _owner creator = true
        /\ is_Some (shm_names w1 !! tag))
  /\ (forall o bytes,
        shm_names w !! tag = Some o -> shm_objects w !! o = Some bytes ->
        sz <> 0 ->
        exists opener w1,
          new tag sz false w = (Ok opener, w1)
          /\ _owner opener = false
          /\ shm_names w1 = shm_names w)
  /\ (forall creator w1 w2,
        new tag sz true w = (Ok creator, w1) ->
        release creator w1 = (Ok tt, w2) ->
        shm_names w2 !! tag = None
        /\ new tag sz false w2 = (Raise NotFound, w2)).
Proof.
  intros Hr. split_and!.
  - reflexivity.
  - intros [o Ho]. by eapply new_create_exists.
  - intros Hn. by apply new_open_missing.
  - intros Hn Hsz. eexists _, _.
    split; [apply new_create_fresh; [lia | done]|].
    split; [done|]. wsimpl. by rewrite lookup_insert_eq.
  - intros o bytes Hn Ho Hsz. eexists _, _.
    split; [eapply new_open_existing; [lia | done..]|]. by split.
  - intros creator w1 w2 Hnew Hrel.
    apply new_ok_inv in Hnew as (m & o & bytes & -> & _).
    rewrite release_full in Hrel. simplify_eq. wsimpl.
    assert (delete tag (shm_names w1) !! tag = None) as Hgone
      by apply lookup_delete_eq.
    split; [done|]. apply new_open_missing; [done|]. by wsimpl.
Qed.

Lemma handle_creation_and_opening_errors_witness :
  0 <= 2 < maxsize
  /\ new "/seg" 2 true world_with_segment = (Raise AlreadyExists, world_with_segment)
  /\ new "/other" 2 false world_with_segment = (Raise NotFound, world_with_segment).
Proof.
  split; [unfold maxsize; lia|]. split.
  - apply (handle_creation_and_opening_errors "/seg" 2); [unfold maxsize; lia|].
    vm_compute. eauto.
  - apply (handle_creation_and_opening_errors "/other" 2); [unfold maxsize; lia|].
    vm_compute. reflexivity.
Defined.

(** C2. Releasing a fully constructed handle always unmaps its region,
    removes the name exactly when the handle is the owner, and never hands
    an exception back: an unlink that fails because the name is already
    gone, as on a second teardown, raises inside [__del__] and ends on
    [stderr]. *)
Theorem teardown_unmaps_and_unlinks_by_owner
    (mem : SharedMemory_obj) (m : nat) (owner : bool) (sz : Z) (w : world) :
  let self := handle (Some mem) (Some m) owner sz in
  exists w' w'',
    release self w = (Ok tt, w')
    /\ mappings w' = delete m (mappings w)
    /\ mappings w' !! m = None
    /\ shm_names w' =
         (if owner then delete (name mem) (shm_names w) else shm_names w)
    /\ shm_objects w' = shm_objects w
    /\ fst (__del__ self w') =
         (if owner then Raise (ExistentialError ENOENT) else Ok tt)
    /\ release self w' = (Ok tt, w'')
    /\ shm_names w'' = shm_names w'
    /\ mappings w'' = mappings w'
    /\ stderr w'' =
         (if owner then stderr w' ++ [ExistentialError ENOENT] else stderr w')%list.
Proof.
  intros self. unfold self. rewrite release_full. eexists _, _.
  split; [reflexivity|]. rewrite release_full, del_full. wsimpl.
  split_and!; try done.
  - apply lookup_delete_eq.
  - destruct owner; [|done]. cbn [andb].
    by rewrite bool_decide_eq_true_2 by apply lookup_delete_eq.
  - destruct owner; [|done]. apply delete_id, lookup_delete_eq.
  - apply delete_id, lookup_delete_eq.
  - destruct owner; [|done]. cbn [andb].
    by rewrite bool_decide_eq_true_2 by apply lookup_delete_eq.
Qed.

(** ** Typed arrays *)

Lemma same_layout_refl w : same_layout w w.
Proof. by repeat split. Qed.

Lemma same_layout_trans w1 w2 w3 :
  same_layout w1 w2 -> same_layout w2 w3 -> same_layout w1 w3.
Proof.
  intros (?&?&?&?&Ha) (?&?&?&?&Hb). split_and!; congruence.
Qed.

Lemma mem_write_ok_inv addr off bs w w' :
  mem_write addr off bs w = (Ok tt, w') ->
  exists o len bytes,
    mappings w !! addr = Some (o, len)
    /\ shm_objects w !! o = Some bytes
    /\ 0 <= off
    /\ off + Z.of_nat (length bs) <= Z.min len (Z.of_nat (length bytes))
    /\ w' = set_shm_objects
              <[o := (take (Z.to_nat off) bytes ++ bs
                      ++ drop (Z.to_nat (off + Z.of_nat (length bs))) bytes)%list]> w.
Proof.
  unfold mem_write. intros H.
  destruct (mappings w !! addr) as [[o len]|]; [|done].
  destruct (shm_objects w !! o) as [bytes|] eqn:Ho; [|done].
  destruct (Z.leb_spec 0 off); [|done].
  destruct (Z.leb_spec (off + Z.of_nat (length bs))
              (Z.min len (Z.of_nat (length bytes)))); [|done].
  cbn [andb] in H. simplify_eq. eauto 10.
Qed.

Lemma length_store (bytes bs : list Z) (off : Z) :
  0 <= off -> off + Z.of_nat (length bs) <= Z.of_nat (length bytes) ->
  length (take (Z.to_nat off) bytes ++ bs
          ++ drop (Z.to_nat (off + Z.of_nat (length bs))) bytes)%list
  = length bytes.
Proof.
  intros. rewrite !length_app, length_take, length_drop. lia.
Qed.

Lemma mem_write_layout addr off bs w w' :
  mem_write addr off bs w = (Ok tt, w') -> same_layout w w'.
Proof.
  intros H. apply mem_write_ok_inv in H as (o & len & bytes & _ & Ho & ? & ? & ->).
  repeat split. intros o'. wsimpl.
  destruct (decide (o = o')) as [<-|].
  - rewrite lookup_insert_eq, Ho. cbn. f_equal. apply length_store; lia.
  - by rewrite lookup_insert_ne.
Qed.

Lemma Array_setitem_layout obj i v w w' :
  Array_setitem obj i v w = (Ok tt, w') -> same_layout w w'.
Proof.
  unfold Array_setitem, bind, lift_result, raise. intros H.
  destruct (_ || _); [done|].
  destruct (setfunc _ _); [|done]. by eapply mem_write_layout.
Qed.

Lemma Array_init_from_layout obj vs : forall i w w',
  Array_init_from obj i vs w = (Ok tt, w') -> same_layout w w'.
Proof.
  induction vs as [|v vs IH]; intros i w w' H; cbn in H.
  - unfold ret in H. simplify_eq. apply same_layout_refl.
  - unfold bind in H.
    destruct (Array_setitem obj i v w) as [[[]|e] w1] eqn:E; [|done].
    eapply same_layout_trans; [by eapply Array_setitem_layout | by eapply IH].
Qed.

Lemma normalized_tag_eq tag w :
  normalized_tag tag w =
    (if issubset tag valid_chars then
       match tag with
       | EmptyString => Raise IndexError
       | String c _ => Ok (if negb (Ascii.eqb c "/") then "/" ++ tag else tag)
       end
     else Raise AssertionError, w).
Proof.
  unfold normalized_tag, bind, assert_, ret, raise.
  destruct (issubset tag valid_chars); [|done].
  destruct tag as [|c tag]; [done|]. by destruct (negb _).
Qed.

Lemma normalized_tag_state tag w r w' :
  normalized_tag tag w = (r, w') -> w' = w.
Proof. rewrite normalized_tag_eq. congruence. Qed.

(** [ShmemRawArray] as a cascade of its steps. *)
Lemma ShmemRawArray_unfold tc soi tag create w :
  ShmemRawArray tc soi tag create w =
    match normalized_tag tag w with
    | (Raise e, _) => (Raise e, w)
    | (Ok nm, _) =>
        match type_mul (resolve_type tc) (count_of soi) with
        | Raise e => (Raise e, w)
        | Ok ty =>
            match ctypes_sizeof ty with
            | Raise e => (Raise e, w)
            | Ok nbytes =>
                match new nm nbytes create w with
                | (Raise e, w1) => (Raise e, w1)
                | (Ok buffer, w1) =>
                    holding (release buffer)
                      (let* address := get_address buffer in
                       let* obj := lift_result (from_address ty address) in
                       let obj := set_buffer obj buffer in
                       match soi with
                       | SizeInt _ => ret tt
                       | Initializer values => Array_init obj values
                       end ;;;
                       ret obj) w1
                end
            end
        end
    end.
Proof.
  unfold ShmemRawArray, bind at 1.
  destruct (normalized_tag tag w) as [[nm|e] w0] eqn:E.
  2:{ by apply normalized_tag_state in E as ->. }
  apply normalized_tag_state in E as ->.
  unfold bind at 1, lift_result at 1.
  replace (match soi with
           | SizeInt n => type_mul (resolve_type tc) n
           | Initializer values =>
               type_mul (resolve_type tc) (Z.of_nat (length values))
           end) with (type_mul (resolve_type tc) (count_of soi))
    by (by destruct soi).
  destruct (type_mul _ _) as [ty|e]; [|done].
  unfold bind at 1, lift_result at 1.
  destruct (ctypes_sizeof ty) as [nbytes|e]; [|done].
  unfold bind at 1. by destruct (new nm nbytes create w) as [[buffer|e] w1].
Qed.

Lemma get_address_ok m owner sz mem w o len bytes :
  mappings w !! m = Some (o, len) -> shm_objects w !! o = Some bytes ->
  get_address (handle mem (Some m) owner sz) w =
    (if Z.of_nat (length bytes) =? sz then Ok m else Raise AssertionError, w).
Proof.
  intros Hm Ho. unfold get_address, handle, bind, mmap_size, assert_,
    address_of_buffer, ret, raise. cbn [_map size]. rewrite Hm, Ho.
  destruct (_ =? _); [|done]. by rewrite Hm.
Qed.

(** A successful construction, in full. *)
Lemma ShmemRawArray_ok_inv tc soi tag create w obj w' :
  ShmemRawArray tc soi tag create w = (Ok obj, w') ->
  exists nm t m o bytes,
    normalized_tag tag w = (Ok nm, w)
    /\ resolve_type tc = Some t
    /\ obj = {| a_type := t; a_length := count_of soi; a_address := m;
                _buffer := Some (handle (Some {| name := nm; fd := -1 |}) (Some m)
                                   create (count_of soi * sizeof t)) |}
    /\ 0 < count_of soi * sizeof t < maxsize
    /\ shm_names w' !! nm = Some o
    /\ mappings w' !! m = Some (o, count_of soi * sizeof t)
    /\ shm_objects w' !! o = Some bytes
    /\ Z.of_nat (length bytes) = count_of soi * sizeof t.
Proof.
  rewrite ShmemRawArray_unfold. intros H.
  destruct (normalized_tag tag w) as [[nm|e] w0] eqn:Etag; [|done].
  pose proof (normalized_tag_state _ _ _ _ Etag) as ->.
  destruct (resolve_type tc) as [t|]; [|done]. cbn [type_mul] in H.
  destruct (Z.ltb_spec (count_of soi) 0); [done|].
  destruct (_ <? _); [done|]. cbn [ctypes_sizeof] in H.
  destruct (new _ _ _ w) as [[buffer|e] w1] eqn:Enew; [|done].
  apply new_ok_inv in Enew as (m & o & bytes & -> & Hr & Hnm & Ho & Hm & Hne & Hsz).
  unfold holding in H. unfold bind at 1 in H.
  erewrite get_address_ok in H by done.
  destruct (Z.eqb_spec (Z.of_nat (length bytes)) (count_of soi * sizeof t))
    as [Hlen|]; [|done].
  unfold bind at 1, lift_result at 1 in H. cbn [from_address] in H.
  unfold bind at 1 in H.
  assert (0 < count_of soi * sizeof t).
  { destruct bytes; [done|]. simpl in Hlen. lia. }
  exists nm, t, m, o.
  destruct soi as [n|values].
  - unfold ret in H. simplify_eq. exists bytes. cbn [count_of] in *.
    rewrite Hlen in Hm. split_and!; try done; lia.
  - destruct (Array_init _ _ w1) as [[[]|e] w2] eqn:Einit; [|done].
    unfold ret in H. simplify_eq.
    apply Array_init_from_layout in Einit as (Hn' & Hm' & _ & _ & Hl).
    specialize (Hl o). rewrite Ho in Hl.
    destruct (shm_objects w' !! o) as [bytes'|] eqn:Ho'; [|done].
    exists bytes'. cbn in Hl. simplify_eq. rewrite Hn', Hm'.
    rewrite Hlen in Hm. cbn [count_of] in *.
    split_and!; try done; [lia|]. by rewrite Hl.
Qed.

(** ** Shaped views *)

Lemma product_replace (q : Z) (l : list Z) :
  product ((fun d => if d <? 0 then q else d) <$> l)
  = product (filter (fun d => 0 <= d) l)
    * q ^ Z.of_nat (length (filter (fun d => d < 0) l)).
Proof.
  induction l as [|d l IH]; [done|].
  rewrite fmap_cons, !filter_cons. unfold product in *. cbn [fold_right].
  rewrite IH. destruct (Z.ltb_spec d 0).
  - rewrite decide_False, decide_True by lia. cbn [length].
    rewrite Nat2Z.inj_succ, Z.pow_succ_r by lia. lia.
  - rewrite decide_True, decide_False by lia. cbn [fold_right]. lia.
Qed.

Lemma filter_nonneg_all (l : list Z) :
  Forall (fun d => 0 <= d) l ->
  filter (fun d => 0 <= d) l = l /\ filter (fun d => d < 0) l = [].
Proof.
  induction 1 as [|d l Hd _ [IH1 IH2]]; [done|].
  rewrite !filter_cons, decide_True, decide_False by lia. by rewrite IH1, IH2.
Qed.

Lemma filter_neg_nil (l : list Z) :
  filter (fun d => d < 0) l = [] -> filter (fun d => 0 <= d) l = l.
Proof.
  induction l as [|d l IH]; [done|]. rewrite !filter_cons.
  destruct (decide (d < 0)); [done|]. rewrite decide_True by lia.
  intros E. by rewrite IH.
Qed.

Lemma reshape_ok_inv a shape view :
  reshape a shape = Ok view ->
  nd_base view = nd_base a
  /\ product (nd_shape view) = product (nd_shape a)
  /\ (Forall (fun d => 0 <= d) shape -> nd_shape view = shape).
Proof.
  unfold reshape. intros H.
  destruct (filter (fun d => d < 0) shape) as [|d1 [|d2 l]] eqn:Eneg;
    cbn [length] in H; [| |done].
  - destruct (Z.eqb_spec (product (nd_shape a))
                (product (filter (fun d => 0 <= d) shape))) as [E|]; [|done].
    simplify_eq. cbn [nd_base nd_shape]. rewrite filter_neg_nil in E by done.
    by split_and!.
  - destruct (Z.eqb_spec (product (filter (fun d => 0 <= d) shape)) 0)
      as [|Hk]; [done|].
    destruct (Z.eqb_spec (product (nd_shape a)
                          mod product (filter (fun d => 0 <= d) shape)) 0)
      as [Hmod|]; [|done].
    cbn [orb negb] in H. simplify_eq. cbn [nd_base nd_shape].
    split_and!; [done| |].
    + rewrite product_replace, Eneg. cbn [length].
      rewrite Z.pow_1_r, <- Z_div_exact_full_2; done.
    + intros Hall. apply filter_nonneg_all in Hall as [_ Hnil]. congruence.
Qed.

Lemma NpShmemArray_ok_inv dtype shape tag create w view w' :
  NpShmemArray dtype shape tag create w = (Ok view, w') ->
  exists ct,
    dict_get NP_TO_C_TYPE dtype None = Some ct
    /\ ShmemRawArray (Ctype ct) (SizeInt (np_prod shape)) tag create w
       = (Ok (nd_base view), w')
    /\ product (nd_shape view) = np_prod shape
    /\ (Forall (fun d => 0 <= d) shape -> nd_shape view = shape).
Proof.
  unfold NpShmemArray. intros H.
  destruct (dict_get NP_TO_C_TYPE dtype None) as [ct|]; [|done].
  unfold bind in H.
  destruct (ShmemRawArray _ _ _ _ w) as [[shmem|e] w1] eqn:E; [|done].
  unfold holding, lift_result in H.
  destruct (reshape (as_array shmem) shape) as [v|e] eqn:Er; [|done].
  simplify_eq. apply reshape_ok_inv in Er as (Hb & Hp & Hs).
  cbn [as_array nd_base nd_shape] in *. exists ct. rewrite Hb.
  apply ShmemRawArray_ok_inv in E as Hinv.
  destruct Hinv as (nm & t & m & o & bytes & _ & _ & -> & _).
  cbn [a_length count_of] in Hp. unfold product in Hp at 2. cbn in Hp.
  split_and!; try done. lia.
Qed.

(** C3. After every successful construction -- by count, by initializer and
    through the shaped view -- the element count times the element size is
    the byte size of the handle, of its mapping and of the mapped object; a
    shaped view has as many elements as the product of its shape, which is
    the requested shape whenever that has no negative dimension. *)
Theorem size_invariant_after_construction :
  (forall tc soi tag create w obj w',
      ShmemRawArray tc soi tag create w = (Ok obj, w') ->
      exists buffer m o bytes,
        _buffer obj = Some buffer
        /\ _map buffer = Some m
        /\ a_length obj = count_of soi
        /\ a_length obj * sizeof (a_type obj) = size buffer
        /\ mappings w' !! m = Some (o, size buffer)
        /\ shm_objects w' !! o = Some bytes
        /\ Z.of_nat (length bytes) = size buffer)
  /\ (forall dtype shape tag create w view w',
      NpShmemArray dtype shape tag create w = (Ok view, w') ->
      exists buffer m o bytes,
        _buffer (nd_base view) = Some buffer
        /\ _map buffer = Some m
        /\ product (nd_shape view) = a_length (nd_base view)
        /\ (Forall (fun d => 0 <= d) shape ->
            nd_shape view = shape /\ product shape = a_length (nd_base view))
        /\ a_length (nd_base view) * sizeof (a_type (nd_base view)) = size buffer
        /\ mappings w' !! m = Some (o, size buffer)
        /\ shm_objects w' !! o = Some bytes
        /\ Z.of_nat (length bytes) = size buffer).
Proof.
  split.
  - intros tc soi tag create w obj w' H.
    apply ShmemRawArray_ok_inv in H
      as (nm & t & m & o & bytes & _ & _ & -> & _ & _ & Hm & Ho & Hl).
    eexists _, m, o, bytes. cbn [_buffer a_length a_type handle _map size].
    by split_and!.
  - intros dtype shape tag create w view w' H.
    apply NpShmemArray_ok_inv in H as (ct & _ & H & Hp & Hs).
    apply ShmemRawArray_ok_inv in H
      as (nm & t & m & o & bytes & _ & _ & Hv & _ & _ & Hm & Ho & Hl).
    rewrite Hv. eexists _, m, o, bytes.
    cbn [_buffer a_length a_type handle _map size count_of] in *.
    split_and!; try done. intros Hall. specialize (Hs Hall).
    split; [done|]. by rewrite <- Hp, Hs.
Qed.

Lemma size_invariant_after_construction_witness :
  exists view w',
    NpShmemArray (DtypeName "float32") [2; 3] "w" true empty_world = (Ok view, w')
    /\ nd_shape view = [2; 3]
    /\ a_length (nd_base view) = 6
    /\ exists buffer,
         _buffer (nd_base view) = Some buffer /\ size buffer = 6 * sizeof c_float.
Proof.
  assert (exists view w',
            NpShmemArray (DtypeName "float32") [2; 3] "w" true empty_world
            = (Ok view, w')) as (view & w' & Hnew)
    by (eexists _, _; vm_compute; reflexivity).
  exists view, w'. split; [exact Hnew|].
  destruct size_invariant_after_construction as [_ Hview].
  destruct (Hview _ _ _ _ _ _ _ Hnew)
    as (buffer & m & o & bytes & Hb & _ & _ & Hshape & Hsz & _).
  destruct Hshape as [Hshape Hprod]; [repeat constructor; lia|].
  assert (a_type (nd_base view) = c_float) as Ht.
  { revert Hnew. vm_compute. by intros [= <- _]. }
  split; [done|]. split; [by rewrite <- Hprod|].
  exists buffer. split; [done|]. by rewrite <- Hsz, <- Hprod, Ht.
Defined.

(** ** Element stores *)

Lemma length_le_bytes n z : length (le_bytes n z) = n.
Proof. revert z. induction n as [|n IH]; intros z; cbn; [done | by rewrite IH]. Qed.

Lemma le_value_le_bytes n z : le_value (le_bytes n z) = z mod 256 ^ Z.of_nat n.
Proof.
  revert z. induction n as [|n IH]; intros z.
  - cbn. by rewrite Z.mod_1_r.
  - cbn [le_bytes le_value]. rewrite IH, Nat2Z.inj_succ, Z.pow_succ_r by lia.
    rewrite Z.rem_mul_r; lia.
Qed.

Lemma setfunc_length t v bs :
  setfunc t v = Ok bs -> Z.of_nat (length bs) = sizeof t.
Proof.
  destruct t, v; cbn; intros H; repeat case_match; simplify_eq;
    rewrite ?length_le_bytes; done.
Qed.

Lemma to_signed_mod bits z :
  0 < bits -> - 2 ^ (bits - 1) <= z < 2 ^ (bits - 1) ->
  to_signed bits (z mod 2 ^ bits) = z.
Proof.
  intros Hb Hz. unfold to_signed.
  assert (2 ^ bits = 2 * 2 ^ (bits - 1)) as E.
  { rewrite <- Z.pow_succ_r by lia. f_equal. lia. }
  destruct (Z.ltb_spec (z mod 2 ^ bits) (2 ^ (bits - 1))) as [Hlt|Hge].
  - destruct (Z.leb_spec 0 z).
    + apply Z.mod_small. lia.
    + exfalso. rewrite <- (Z.mod_add z 1), Z.mod_small in Hlt; lia.
  - destruct (Z.leb_spec 0 z).
    + rewrite Z.mod_small in Hge; lia.
    + rewrite <- (Z.mod_add z 1), Z.mod_small; lia.
Qed.

Lemma Ok_inj {A} (a b : A) : Ok a = Ok b -> a = b.
Proof. congruence. Qed.

(** Evaluates the closed powers in the goal and in the hypotheses. *)
Ltac eval_powers :=
  repeat match goal with
    | H : context [?b ^ ?n] |- _ =>
        let v := eval vm_compute in (b ^ n) in
        progress change (b ^ n) with v in H
    | |- context [?b ^ ?n] =>
        let v := eval vm_compute in (b ^ n) in
        progress change (b ^ n) with v
    end.

Lemma integer_stored t z bs :
  is_integer_type t = true ->
  setfunc t (PyInt z) = Ok bs -> getfunc t bs = PyInt (int_wrap t z).
Proof.
  destruct t; try done; intros _ H;
    unfold setfunc in H; apply Ok_inj in H; subst bs;
    unfold getfunc, int_wrap, is_signed;
    rewrite le_value_le_bytes; reflexivity.
Qed.

Lemma int_wrap_representable t z :
  is_integer_type t = true -> representable t z -> int_wrap t z = z.
Proof.
  unfold representable, int_wrap.
  destruct t; try done; intros _ Hz; cbn [is_signed] in *;
    first [ apply (to_signed_mod 8); [lia | eval_powers; lia]
          | apply (to_signed_mod 16); [lia | eval_powers; lia]
          | apply (to_signed_mod 32); [lia | eval_powers; lia]
          | apply (to_signed_mod 64); [lia | eval_powers; lia]
          | apply Z.mod_small; eval_powers; lia ].
Qed.

Lemma mem_write_ok m off bs w o len bytes :
  mappings w !! m = Some (o, len) -> shm_objects w !! o = Some bytes ->
  0 <= off -> off + Z.of_nat (length bs) <= Z.min len (Z.of_nat (length bytes)) ->
  mem_write m off bs w =
    (Ok tt,
     set_shm_objects
       <[o := (take (Z.to_nat off) bytes ++ bs
               ++ drop (Z.to_nat (off + Z.of_nat (length bs))) bytes)%list]> w).
Proof.
  intros Hm Ho H0 H1. unfold mem_write. rewrite Hm, Ho.
  destruct (Z.leb_spec 0 off); [|lia].
  destruct (Z.leb_spec (off + Z.of_nat (length bs))
              (Z.min len (Z.of_nat (length bytes)))); [done | lia].
Qed.

Lemma mem_read_ok m off n w o len bytes :
  mappings w !! m = Some (o, len) -> shm_objects w !! o = Some bytes ->
  0 <= off -> off + n <= Z.min len (Z.of_nat (length bytes)) ->
  mem_read m off n w = (Ok (take (Z.to_nat n) (drop (Z.to_nat off) bytes)), w).
Proof.
  intros Hm Ho H0 H1. unfold mem_read. rewrite Hm, Ho.
  destruct (Z.leb_spec 0 off); [|lia].
  destruct (Z.leb_spec (off + n) (Z.min len (Z.of_nat (length bytes))));
    [done | lia].
Qed.

Lemma sizeof_pos t : 0 < sizeof t.
Proof. destruct t; cbn; lia. Qed.

(** Assigning [vs] from index [i] on, when the object holds [pre ++ rest]
    and [pre] is what lies before element [i]. *)
Lemma Array_init_from_ok obj o len vs es :
  Forall2 (fun v e => setfunc (a_type obj) v = Ok e) vs es ->
  forall i pre rest w,
    mappings w !! a_address obj = Some (o, len) ->
    shm_objects w !! o = Some (pre ++ rest)%list ->
    0 <= i -> Z.of_nat (length pre) = i * sizeof (a_type obj) ->
    i + Z.of_nat (length vs) <= a_length obj ->
    Z.of_nat (length vs) * sizeof (a_type obj) <= Z.of_nat (length rest) ->
    Z.of_nat (length pre) + Z.of_nat (length vs) * sizeof (a_type obj) <= len ->
    Array_init_from obj i vs w =
      (Ok tt,
       set_shm_objects
         <[o := (pre ++ concat es
                 ++ drop (Z.to_nat (Z.of_nat (length vs) * sizeof (a_type obj)))
                      rest)%list]> w).
Proof.
  induction 1 as [|v e vs es Hv _ IH];
    intros i pre rest w Hmap Hobj Hi Hpre Hn Hrest Hlen.
  - cbn. unfold ret. f_equal. destruct w. unfold set_shm_objects. cbn in *.
    f_equal. by rewrite insert_id.
  - pose proof (setfunc_length _ _ _ Hv) as He.
    pose proof (sizeof_pos (a_type obj)) as Hs.
    pose proof (Z.mul_nonneg_nonneg (Z.of_nat (length vs)) (sizeof (a_type obj))
                  ltac:(lia) ltac:(lia)) as Hnn.
    cbn [Array_init_from length] in *. unfold bind at 1.
    unfold Array_setitem. destruct (Z.ltb_spec i 0); [lia|].
    destruct (Z.ltb_spec i 0); [lia|].
    destruct (Z.leb_spec (a_length obj) i); [lia|]. cbn [orb].
    unfold bind at 1, lift_result at 1. rewrite Hv.
    erewrite mem_write_ok; [| done | done | lia |].
    2:{ rewrite length_app. lia. }
    rewrite (take_app_length' pre rest) by lia.
    replace (Z.to_nat (i * sizeof (a_type obj) + Z.of_nat (length e)))
      with (length pre + length e)%nat by lia.
    rewrite drop_app_add' by done.
    rewrite (IH (i + 1) (pre ++ e)%list (drop (length e) rest)).
    + f_equal. unfold set_shm_objects. cbn [shm_names shm_objects fd_table mappings stderr].
      rewrite insert_insert_eq. do 2 f_equal. cbn [concat].
      rewrite <- !app_assoc, drop_drop.
      by replace (Z.to_nat (Z.of_nat (S (length vs)) * sizeof (a_type obj)))
        with (length e + Z.to_nat (Z.of_nat (length vs) * sizeof (a_type obj)))%nat
        by lia.
    + done.
    + unfold set_shm_objects. cbn [shm_objects]. rewrite lookup_insert_eq.
      by rewrite app_assoc.
    + lia.
    + rewrite length_app. lia.
    + lia.
    + rewrite length_drop. lia.
    + rewrite length_app. lia.
Qed.

Lemma concat_chunk (sz : nat) (es : list (list Z)) (tail : list Z) :
  Forall (fun e => length e = sz) es ->
  forall j e, es !! j = Some e ->
    take sz (drop (j * sz) (concat es ++ tail)) = e.
Proof.
  induction 1 as [|e0 es He _ IH]; intros j e Hj; [done|].
  destruct j as [|j]; cbn in Hj.
  - simplify_eq. cbn [concat Nat.mul drop]. rewrite <- app_assoc.
    by apply take_app_length'.
  - cbn [concat]. rewrite <- app_assoc.
    replace (S j * sz)%nat with (length e0 + j * sz)%nat by lia.
    rewrite drop_app_add' by done. by apply IH.
Qed.

Lemma length_concat_chunks (sz : nat) (es : list (list Z)) :
  Forall (fun e => length e = sz) es -> length (concat es) = (length es * sz)%nat.
Proof.
  induction 1 as [|e es He _ IH]; [done|].
  cbn [concat length]. rewrite length_app. lia.
Qed.

Lemma type_mul_ok tc t n :
  resolve_type tc = Some t -> 0 <= n -> n * sizeof t < maxsize ->
  type_mul (resolve_type tc) n = Ok (Some (t, n)).
Proof.
  intros -> Hn Hsz. cbn [type_mul]. pose proof (sizeof_pos t).
  destruct (Z.ltb_spec n 0); [lia|].
  destruct (Z.ltb_spec (maxsize / sizeof t) n) as [Hlt|]; [|done].
  exfalso. apply Z.lt_nge in Hlt. apply Hlt, Z.div_le_lower_bound; lia.
Qed.

(** The errors of C1 as they reach the caller of [ShmemRawArray], under the
    normalized name. *)
Lemma typed_array_creation_and_opening_errors tc soi tag nm t w :
  normalized_tag tag w = (Ok nm, w) -> resolve_type tc = Some t ->
  0 <= count_of soi -> count_of soi * sizeof t < maxsize ->
  (is_Some (shm_names w !! nm) ->
   ShmemRawArray tc soi tag true w = (Raise AlreadyExists, w))
  /\ (shm_names w !! nm = None ->
      ShmemRawArray tc soi tag false w = (Raise NotFound, w)).
Proof.
  intros Htag Ht Hn Hsz. pose proof (sizeof_pos t).
  assert (0 <= count_of soi * sizeof t < maxsize) by nia.
  split.
  - intros [o Ho]. rewrite ShmemRawArray_unfold, Htag, (type_mul_ok _ t) by done.
    cbn [ctypes_sizeof]. by erewrite new_create_exists.
  - intros Hnone. rewrite ShmemRawArray_unfold, Htag, (type_mul_ok _ t) by done.
    cbn [ctypes_sizeof]. by rewrite new_open_missing.
Qed.

(** Creation by count under a fresh name. *)
Lemma ShmemRawArray_create_by_count tc n tag w nm t :
  normalized_tag tag w = (Ok nm, w) -> resolve_type tc = Some t ->
  0 < n -> n * sizeof t < maxsize -> shm_names w !! nm = None ->
  let o := fresh (dom (shm_objects w)) in
  let m := fresh (dom (mappings w)) in
  ShmemRawArray tc (SizeInt n) tag true w =
    (Ok {| a_type := t; a_length := n; a_address := m;
           _buffer := Some (handle (Some {| name := nm; fd := -1 |}) (Some m)
                              true (n * sizeof t)) |},
     World (<[nm := o]> (shm_names w))
           (<[o := replicate (Z.to_nat (n * sizeof t)) 0]> (shm_objects w))
           (fd_table w)
           (<[m := (o, n * sizeof t)]> (mappings w))
           (stderr w)).
Proof.
  intros Htag Ht Hn Hsz Hfree o m. pose proof (sizeof_pos t).
  rewrite ShmemRawArray_unfold, Htag. cbn [count_of].
  rewrite (type_mul_ok _ t) by (done || lia). cbn [ctypes_sizeof].
  rewrite new_create_fresh by (done || lia).
  unfold holding, bind at 1.
  erewrite get_address_ok; wsimpl; [| apply lookup_insert_eq | apply lookup_insert_eq].
  rewrite length_replicate, Z2Nat.id, Z.eqb_refl by lia.
  by unfold bind, lift_result, ret.
Qed.

(** Creation by initializer under a fresh name: the object holds the stored
    forms of the values, one after the other. *)
Lemma ShmemRawArray_create_by_initializer tc values es tag w nm t :
  normalized_tag tag w = (Ok nm, w) -> resolve_type tc = Some t ->
  values <> [] -> Z.of_nat (length values) * sizeof t < maxsize ->
  shm_names w !! nm = None ->
  Forall2 (fun v e => setfunc t v = Ok e) values es ->
  let n := Z.of_nat (length values) in
  let o := fresh (dom (shm_objects w)) in
  let m := fresh (dom (mappings w)) in
  ShmemRawArray tc (Initializer values) tag true w =
    (Ok {| a_type := t; a_length := n; a_address := m;
           _buffer := Some (handle (Some {| name := nm; fd := -1 |}) (Some m)
                              true (n * sizeof t)) |},
     World (<[nm := o]> (shm_names w))
           (<[o := concat es]> (shm_objects w))
           (fd_table w)
           (<[m := (o, n * sizeof t)]> (mappings w))
           (stderr w)).
Proof.
  intros Htag Ht Hne Hsz Hfree Hes n o m. pose proof (sizeof_pos t).
  assert (0 < n) by (destruct values; [done | unfold n; cbn [length]; lia]).
  rewrite ShmemRawArray_unfold, Htag. cbn [count_of]. fold n.
  rewrite (type_mul_ok _ t) by (done || lia). cbn [ctypes_sizeof].
  rewrite new_create_fresh by (done || lia).
  unfold holding, bind at 1.
  erewrite get_address_ok; wsimpl; [| apply lookup_insert_eq | apply lookup_insert_eq].
  rewrite length_replicate, Z2Nat.id, Z.eqb_refl by lia.
  unfold bind at 1, lift_result at 1. cbn [from_address].
  unfold bind at 1, Array_init.
  match goal with
  | |- context [Array_init_from ?ob _ _ _] =>
      erewrite (Array_init_from_ok ob o (n * sizeof t) values es Hes 0 []
                  (replicate (Z.to_nat (n * sizeof t)) 0))
  end; wsimpl; cbn [a_type a_length set_buffer app length Z.of_nat].
  - unfold ret. rewrite insert_insert_eq. fold n.
    rewrite drop_ge, app_nil_r by (rewrite length_replicate; lia). done.
  - apply lookup_insert_eq.
  - apply lookup_insert_eq.
  - lia.
  - lia.
  - fold n. lia.
  - rewrite length_replicate. fold n. lia.
  - fold n. lia.
Qed.

Lemma Array_getitem_chunk obj (i : nat) w o es e :
  mappings w !! a_address obj = Some (o, a_length obj * sizeof (a_type obj)) ->
  shm_objects w !! o = Some (concat es) ->
  Forall (fun e => Z.of_nat (length e) = sizeof (a_type obj)) es ->
  Z.of_nat (length es) = a_length obj ->
  es !! i = Some e ->
  Array_getitem obj (Z.of_nat i) w = (Ok (getfunc (a_type obj) e), w).
Proof.
  intros Hm Ho Hes Hlen Hi. pose proof (sizeof_pos (a_type obj)) as Hs.
  pose proof (lookup_lt_Some _ _ _ Hi) as Hlt.
  assert (Forall (fun e => length e = Z.to_nat (sizeof (a_type obj))) es) as Hes'.
  { eapply Forall_impl; [exact Hes|]. cbn. lia. }
  unfold Array_getitem. destruct (Z.ltb_spec (Z.of_nat i) 0); [lia|].
  destruct (Z.ltb_spec (Z.of_nat i) 0); [lia|].
  destruct (Z.leb_spec (a_length obj) (Z.of_nat i)); [lia|]. cbn [orb].
  unfold bind, ret.
  erewrite mem_read_ok; [| done | done | nia |].
  2:{ rewrite (length_concat_chunks _ _ Hes'). nia. }
  do 3 f_equal.
  replace (Z.to_nat (Z.of_nat i * sizeof (a_type obj)))
    with (i * Z.to_nat (sizeof (a_type obj)))%nat by nia.
  rewrite <- (app_nil_r (concat es)). by apply concat_chunk.
Qed.

Lemma Forall_stored (t : ctype) (values : list pyval) :
  Forall (fun v => exists e, setfunc t v = Ok e) values ->
  exists es, Forall2 (fun v e => setfunc t v = Ok e) values es.
Proof.
  induction 1 as [|v vs [e He] _ [es IH]]; [by exists [] |].
  exists (e :: es). by constructor.
Qed.

(** C9, as amended.  Creating an array from a non-empty initializer whose
    values the element type accepts yields as many elements as there are
    values, and element [i] reads back as the stored form of [values[i]]:
    what the getter makes of the bytes the setter wrote.  For an integer
    element type this is the value reduced modulo [2^bits] into the range of
    the type, and so the value itself when it lies in that range. *)
Theorem initializer_fills_elements
    (tc : typecode_or_type) (values : list pyval) (tag nm : string)
    (t : ctype) (w : world) :
  values <> [] ->
  normalized_tag tag w = (Ok nm, w) ->
  resolve_type tc = Some t ->
  Z.of_nat (length values) * sizeof t < maxsize ->
  shm_names w !! nm = None ->
  Forall (fun v => exists e, setfunc t v = Ok e) values ->
  exists obj w',
    ShmemRawArray tc (Initializer values) tag true w = (Ok obj, w')
    /\ a_type obj = t
    /\ a_length obj = Z.of_nat (length values)
    /\ (forall (i : nat) v, values !! i = Some v ->
          exists e, setfunc t v = Ok e
            /\ Array_getitem obj (Z.of_nat i) w' = (Ok (getfunc t e), w'))
    /\ (forall (i : nat) z,
          is_integer_type t = true -> values !! i = Some (PyInt z) ->
          Array_getitem obj (Z.of_nat i) w' = (Ok (PyInt (int_wrap t z)), w')
          /\ (representable t z ->
              Array_getitem obj (Z.of_nat i) w' = (Ok (PyInt z), w'))).
Proof.
  intros Hne Htag Ht Hsz Hfree Hall.
  destruct (Forall_stored _ _ Hall) as [es Hes].
  eexists _, _. split; [by apply ShmemRawArray_create_by_initializer|].
  cbn [a_type a_length].
  assert (forall (i : nat) v, values !! i = Some v ->
            exists e, setfunc t v = Ok e /\
              Array_getitem
                {| a_type := t; a_length := Z.of_nat (length values);
                   a_address := fresh (dom (mappings w));
                   _buffer := Some (handle (Some {| name := nm; fd := -1 |})
                                      (Some (fresh (dom (mappings w)))) true
                                      (Z.of_nat (length values) * sizeof t)) |}
                (Z.of_nat i)
                (World (<[nm := fresh (dom (shm_objects w))]> (shm_names w))
                   (<[fresh (dom (shm_objects w)) := concat es]> (shm_objects w))
                   (fd_table w)
                   (<[fresh (dom (mappings w)) :=
                        (fresh (dom (shm_objects w)),
                         Z.of_nat (length values) * sizeof t)]> (mappings w))
                   (stderr w))
              = (Ok (getfunc t e),
                 World (<[nm := fresh (dom (shm_objects w))]> (shm_names w))
                   (<[fresh (dom (shm_objects w)) := concat es]> (shm_objects w))
                   (fd_table w)
                   (<[fresh (dom (mappings w)) :=
                        (fresh (dom (shm_objects w)),
                         Z.of_nat (length values) * sizeof t)]> (mappings w))
                   (stderr w))) as Hread.
  { intros i v Hi.
    destruct (Forall2_lookup_l _ _ _ _ _ Hes Hi) as (e & He & Hv).
    exists e. split; [done|].
    eapply Array_getitem_chunk; wsimpl; cbn [a_type a_length a_address].
    - apply lookup_insert_eq.
    - apply lookup_insert_eq.
    - clear -Hes. induction Hes as [|???? Hv]; constructor; [|done].
      by eapply setfunc_length.
    - by rewrite (Forall2_length _ _ _ Hes).
    - done. }
  split_and!; [done | done | exact Hread |].
  intros i z Hint Hi. destruct (Hread i _ Hi) as (e & He & ->).
  rewrite (integer_stored _ _ _ Hint He). split; [done|].
  intros Hrep. by rewrite (int_wrap_representable _ _ Hint Hrep).
Qed.

Lemma initializer_fills_elements_witness :
  [PyInt 5; PyInt (-7)] <> []
  /\ normalized_tag "t" empty_world = (Ok "/t", empty_world)
  /\ exists obj w',
       ShmemRawArray (Typecode "i") (Initializer [PyInt 5; PyInt (-7)]) "t" true
         empty_world = (Ok obj, w')
       /\ a_length obj = 2
       /\ Array_getitem obj 1 w' = (Ok (PyInt (-7)), w').
Proof.
  split; [done|]. split; [reflexivity|].
  destruct (initializer_fills_elements (Typecode "i") [PyInt 5; PyInt (-7)]
              "t" "/t" c_int empty_world)
    as (obj & w' & Hnew & _ & Hlen & _ & Hint).
  - done.
  - reflexivity.
  - reflexivity.
  - reflexivity.
  - reflexivity.
  - repeat constructor; eexists; reflexivity.
  - exists obj, w'. split_and!; [done | done |].
    apply (Hint 1%nat (-7)); [reflexivity | reflexivity |].
    unfold representable. cbn. lia.
Defined.

(** The claim as stated fails: the unsigned byte made from 300 reads 44. *)
Lemma initializer_value_not_kept :
  exists obj w',
    ShmemRawArray (Typecode "B") (Initializer [PyInt 300]) "/t" true empty_world
    = (Ok obj, w')
    /\ a_length obj = 1
    /\ Array_getitem obj 0 w' = (Ok (PyInt 44), w')
    /\ fst (Array_getitem obj 0 w') <> Ok (PyInt 300).
Proof.
  eexists _, _. split; [vm_compute; reflexivity|].
  split; [reflexivity|]. split; [vm_compute; reflexivity|].
  vm_compute. discriminate.
Qed.

(** ** Exceptions that cannot arise *)

Section Never.
Context {S : Type} (e0 : exn).

Lemma never_ret {A} (a : A) : never_raises (S := S) e0 (ret a).
Proof. by intros s. Qed.

Lemma never_raise {A} e : e <> e0 -> never_raises (S := S) (A := A) e0 (raise e).
Proof. intros Hne s. cbn. congruence. Qed.

Lemma never_bind {A B} (m : M S A) (k : A -> M S B) :
  never_raises e0 m -> (forall a, never_raises e0 (k a)) ->
  never_raises e0 (bind m k).
Proof.
  intros Hm Hk s. unfold bind. specialize (Hm s).
  destruct (m s) as [[a|e] s']; [apply Hk|].
  cbn in *. congruence.
Qed.

Lemma never_assert b : e0 <> AssertionError -> never_raises (S := S) e0 (assert_ b).
Proof.
  intros Hne. destruct b; [apply never_ret | by apply never_raise].
Qed.

Lemma never_lift_result {A} (r : result A) :
  r <> Raise e0 -> never_raises (S := S) e0 (lift_result r).
Proof. by intros Hne s. Qed.

Lemma never_modify (f : S -> S) : never_raises e0 (modify f).
Proof. by intros s. Qed.
End Never.

Lemma never_call e0 {A} (m : M world A) :
  never_raises e0 m -> never_raises e0 (call m).
Proof.
  intros Hm [self w]. unfold call. specialize (Hm w).
  destruct (m w) as [[a|e] w']; cbn in *; congruence.
Qed.

Lemma never_holding e0 {A} (f : M world unit) (m : M world A) :
  never_raises e0 m -> never_raises e0 (holding f m).
Proof.
  intros Hm w. unfold holding. specialize (Hm w).
  destruct (m w) as [[a|e] w']; cbn in *; congruence.
Qed.

(** The library calls raise what their models list, and nothing else. *)
Ltac never_by_cases :=
  unfold UnsupportedDType; intros ?;
  repeat (case_match; cbn [fst]); cbn [fst]; discriminate.

Lemma never_unsupported_SharedMemory nm flags sz :
  never_raises UnsupportedDType (SharedMemory nm flags sz).
Proof.
  unfold SharedMemory. case_match; [by apply never_raise|].
  apply never_bind; [unfold shm_open; never_by_cases|]. intros d.
  apply never_bind; [|intros; apply never_ret].
  case_match; [apply never_ret|]. unfold ftruncate. never_by_cases.
Qed.

Lemma never_unsupported_fstat_size d : never_raises UnsupportedDType (fstat_size d).
Proof. unfold fstat_size. never_by_cases. Qed.

Lemma never_unsupported_mmap d n : never_raises UnsupportedDType (mmap_mmap d n).
Proof. unfold mmap_mmap. never_by_cases. Qed.

Lemma never_unsupported_close_fd mem :
  never_raises UnsupportedDType (SharedMemory_close_fd mem).
Proof. unfold SharedMemory_close_fd. never_by_cases. Qed.

Lemma never_unsupported_new tag sz create :
  never_raises UnsupportedDType (new tag sz create).
Proof.
  intros w. rewrite new_unfold.
  pose proof (never_unsupported_SharedMemory tag (flag_of create) sz w) as H1.
  case_match; [|done].
  destruct (SharedMemory _ _ _ w) as [[mem|e] w1]; [|cbn in *; congruence].
  pose proof (never_unsupported_fstat_size (fd mem) w1) as H2.
  unfold SharedMemory_size.
  destruct (fstat_size _ w1) as [[n|e] w2]; [|cbn in *; congruence].
  pose proof (never_unsupported_mmap (fd mem) n w2) as H3.
  destruct (mmap_mmap _ _ w2) as [[m|e] w3]; [|cbn in *; congruence].
  pose proof (never_unsupported_close_fd mem w3) as H4.
  destruct (SharedMemory_close_fd mem w3) as [[mem'|e] w4];
    [done | cbn in *; congruence].
Qed.

Lemma never_unsupported_get_address self :
  never_raises UnsupportedDType (get_address self).
Proof.
  unfold get_address. case_match; [|by apply never_raise].
  apply never_bind; [unfold mmap_size; never_by_cases|]. intros len.
  apply never_bind; [by apply never_assert|]. intros _.
  unfold address_of_buffer. never_by_cases.
Qed.

Lemma double_of_int_raise z e : double_of_int z = Raise e -> e = OverflowError.
Proof. unfold double_of_int. repeat case_match; congruence. Qed.

Lemma never_unsupported_setfunc t v : setfunc t v <> Raise UnsupportedDType.
Proof.
  unfold setfunc, UnsupportedDType. intros H.
  destruct t, v; try discriminate;
    repeat (case_match; try discriminate);
    match goal with
    | E : double_of_int _ = Raise _ |- _ => apply double_of_int_raise in E
    end; congruence.
Qed.

Lemma never_unsupported_setitem obj i v :
  never_raises UnsupportedDType (Array_setitem obj i v).
Proof.
  unfold Array_setitem. case_match; [by apply never_raise|].
  apply never_bind; [apply never_lift_result, never_unsupported_setfunc|].
  intros bs. unfold mem_write. never_by_cases.
Qed.

Lemma never_unsupported_init obj vs : forall i,
  never_raises UnsupportedDType (Array_init_from obj i vs).
Proof.
  induction vs as [|v vs IH]; intros i; cbn [Array_init_from].
  - apply never_ret.
  - apply never_bind; [apply never_unsupported_setitem | intros; apply IH].
Qed.

Lemma never_unsupported_ShmemRawArray tc soi tag create :
  never_raises UnsupportedDType (ShmemRawArray tc soi tag create).
Proof.
  unfold ShmemRawArray.
  apply never_bind.
  { unfold normalized_tag. apply never_bind; [by apply never_assert|].
    intros _. repeat case_match; (apply never_ret || by apply never_raise). }
  intros nm. apply never_bind.
  { apply never_lift_result. unfold type_mul, UnsupportedDType.
    repeat case_match; discriminate. }
  intros ty. apply never_bind.
  { apply never_lift_result. unfold ctypes_sizeof. repeat case_match; discriminate. }
  intros nbytes. apply never_bind; [apply never_unsupported_new|].
  intros buffer. apply never_holding.
  apply never_bind; [apply never_unsupported_get_address|]. intros address.
  apply never_bind.
  { apply never_lift_result. unfold from_address. repeat case_match; discriminate. }
  intros obj. apply never_bind; [|intros; apply never_ret].
  destruct soi; [apply never_ret | apply never_unsupported_init].
Qed.

Lemma never_unsupported_reshape a shape : reshape a shape <> Raise UnsupportedDType.
Proof. unfold reshape, UnsupportedDType. repeat case_match; discriminate. Qed.

(** ** Dtypes *)

(** C4. A dtype without an element type -- absent from the table, or present
    with no type, as float16 is -- makes the shaped view fail with
    [UnsupportedDType] before anything else happens, so that no array of any
    other element type is handed out; a dtype with an element type never
    produces this error. *)
Theorem unsupported_dtype_is_rejected
    (dtype : dtype_key) (shape : list Z) (tag : string) (create : bool) (w : world) :
  (dict_lookup NP_TO_C_TYPE dtype = None \/ dict_lookup NP_TO_C_TYPE dtype = Some None ->
   NpShmemArray dtype shape tag create w = (Raise UnsupportedDType, w))
  /\ dict_lookup NP_TO_C_TYPE (DtypeName "float16") = Some None
  /\ dict_lookup NP_TO_C_TYPE (DtypeObj "float16") = Some None
  /\ NpShmemArray (DtypeName "float16") shape tag create w = (Raise UnsupportedDType, w)
  /\ NpShmemArray (DtypeObj "float16") shape tag create w = (Raise UnsupportedDType, w)
  /\ (forall ct, dict_lookup NP_TO_C_TYPE dtype = Some (Some ct) ->
      fst (NpShmemArray dtype shape tag create w) <> Raise UnsupportedDType).
Proof.
  split_and!; try reflexivity.
  - intros H. unfold NpShmemArray, dict_get. by destruct H as [-> | ->].
  - intros ct H. unfold NpShmemArray, dict_get. rewrite H.
    apply never_bind; [apply never_unsupported_ShmemRawArray|].
    intros shmem. apply never_holding, never_lift_result, never_unsupported_reshape.
Qed.

Lemma unsupported_dtype_is_rejected_witness :
  dict_lookup NP_TO_C_TYPE (DtypeName "complex64") = None
  /\ NpShmemArray (DtypeName "complex64") [2; 3] "/w" true empty_world
     = (Raise UnsupportedDType, empty_world)
  /\ dict_lookup NP_TO_C_TYPE (DtypeName "int32") = Some (Some c_int)
  /\ fst (NpShmemArray (DtypeName "int32") [2; 3] "/w" true empty_world)
     <> Raise UnsupportedDType.
Proof.
  split; [reflexivity|]. split.
  - apply (unsupported_dtype_is_rejected (DtypeName "complex64")). by left.
  - split; [reflexivity|].
    destruct (unsupported_dtype_is_rejected (DtypeName "int32") [2; 3] "/w" true
                empty_world) as (_ & _ & _ & _ & _ & H).
    by apply (H c_int).
Defined.

(** ** Tags *)

(** [valid_chars] is the alphabet the specification names. *)
Lemma valid_chars_spec (c : ascii) :
  existsb (Ascii.eqb c) valid_chars = is_tag_char c.
Proof.
  destruct c as [[] [] [] [] [] [] [] []]; vm_compute; reflexivity.
Qed.

Lemma issubset_spec (tag : string) :
  issubset tag valid_chars = forallb is_tag_char (list_ascii_of_string tag).
Proof.
  unfold issubset. induction (list_ascii_of_string tag) as [|c l IH]; [done|].
  cbn [forallb]. by rewrite valid_chars_spec, IH.
Qed.

Lemma issubset_false (tag : string) :
  (exists c, In c (list_ascii_of_string tag) /\ is_tag_char c = false) ->
  issubset tag valid_chars = false.
Proof.
  intros (c & Hin & Hc). rewrite issubset_spec.
  destruct (forallb _ _) eqn:E; [|done].
  rewrite forallb_forall in E. specialize (E c Hin). congruence.
Qed.

Lemma issubset_true (tag : string) :
  (forall c, In c (list_ascii_of_string tag) -> is_tag_char c = true) ->
  issubset tag valid_chars = true.
Proof. intros H. rewrite issubset_spec. by apply forallb_forall. Qed.

(** The shaped view fails on the tag whenever the typed array does, unless
    the dtype has already been refused; the state is untouched either way. *)
Lemma NpShmemArray_tag_failure dtype shape tag create w e :
  (forall tc soi, ShmemRawArray tc soi tag create w = (Raise e, w)) ->
  exists e',
    NpShmemArray dtype shape tag create w = (Raise e', w)
    /\ (is_Some (dict_get NP_TO_C_TYPE dtype None) -> e' = e)
    /\ (dict_get NP_TO_C_TYPE dtype None = None -> e' = UnsupportedDType).
Proof.
  intros H. unfold NpShmemArray.
  destruct (dict_get NP_TO_C_TYPE dtype None) as [ct|].
  - exists e. unfold bind. rewrite H. by split_and!.
  - exists UnsupportedDType. split_and!; [done | by intros [] | done].
Qed.

(** C5. A tag with a character outside the alphabet makes every creation and
    every opening fail on the tag check, with the kernel and the process
    untouched: the typed array fails with [InvalidTag], and so does the
    shaped view once its dtype is known.  A tag made of characters of the
    alphabet passes the check, and when it is not empty its name is
    settled without touching the state. *)
Theorem invalid_tag_fails_before_any_system_call (tag : string) :
  ((exists c, In c (list_ascii_of_string tag) /\ is_tag_char c = false) ->
   (forall tc soi create w,
      ShmemRawArray tc soi tag create w = (Raise InvalidTag, w))
   /\ (forall dtype shape create w,
         exists e,
           NpShmemArray dtype shape tag create w = (Raise e, w)
           /\ (is_Some (dict_get NP_TO_C_TYPE dtype None) -> e = InvalidTag)))
  /\ ((forall c, In c (list_ascii_of_string tag) -> is_tag_char c = true) ->
      issubset tag valid_chars = true
      /\ (tag <> "" -> forall w, exists nm, normalized_tag tag w = (Ok nm, w))).
Proof.
  split.
  - intros Hbad. apply issubset_false in Hbad.
    assert (forall tc soi create w,
              ShmemRawArray tc soi tag create w = (Raise InvalidTag, w)) as Hraw.
    { intros. by rewrite ShmemRawArray_unfold, normalized_tag_eq, Hbad. }
    split; [done|]. intros dtype shape create w.
    destruct (NpShmemArray_tag_failure dtype shape tag create w InvalidTag
                (fun tc soi => Hraw tc soi create w))
      as (e & He & Hsome & _). by exists e.
  - intros Hok. apply issubset_true in Hok. split; [done|].
    intros Hne w. rewrite normalized_tag_eq, Hok.
    destruct tag; [done|]. by eexists.
Qed.

Lemma invalid_tag_fails_before_any_system_call_witness :
  (exists c, In c (list_ascii_of_string "a$b") /\ is_tag_char c = false)
  /\ ShmemRawArray (Typecode "d") (SizeInt 4) "a$b" true empty_world
     = (Raise InvalidTag, empty_world)
  /\ (forall c, In c (list_ascii_of_string "/seg-1_a.b c") -> is_tag_char c = true)
  /\ issubset "/seg-1_a.b c" valid_chars = true.
Proof.
  assert (exists c, In c (list_ascii_of_string "a$b") /\ is_tag_char c = false)
    as Hbad.
  { exists "$"%char. split; [cbn; tauto | reflexivity]. }
  assert (forall c, In c (list_ascii_of_string "/seg-1_a.b c") ->
                    is_tag_char c = true) as Hok.
  { intros c Hin. cbn in Hin.
    repeat (destruct Hin as [<- | Hin]; [reflexivity|]). destruct Hin. }
  split; [exact Hbad|]. split.
  - by apply (invalid_tag_fails_before_any_system_call "a$b").
  - split; [exact Hok|].
    by apply (invalid_tag_fails_before_any_system_call "/seg-1_a.b c").
Defined.

(** C10. The empty tag passes the character check, there being no
    character to refuse, and then fails on [tag[0]]: every creation and
    opening ends in [IndexError], not in [InvalidTag], with the kernel and
    the process untouched. *)
Theorem empty_tag_fails_with_index_error :
  issubset "" valid_chars = true
  /\ (forall tc soi create w,
        ShmemRawArray tc soi "" create w = (Raise IndexError, w))
  /\ (forall dtype shape create w,
        exists e,
          NpShmemArray dtype shape "" create w = (Raise e, w)
          /\ e <> InvalidTag
          /\ (is_Some (dict_get NP_TO_C_TYPE dtype None) -> e = IndexError)).
Proof.
  split; [reflexivity|].
  assert (forall tc soi create w,
            ShmemRawArray tc soi "" create w = (Raise IndexError, w)) as Hraw.
  { intros. by rewrite ShmemRawArray_unfold. }
  split; [done|]. intros dtype shape create w.
  destruct (NpShmemArray_tag_failure dtype shape "" create w IndexError
              (fun tc soi => Hraw tc soi create w))
    as (e & He & Hsome & Hnone).
  exists e. split_and!; [done | | done].
  destruct (dict_get NP_TO_C_TYPE dtype None) eqn:E.
  - rewrite Hsome by done. discriminate.
  - rewrite Hnone by done. discriminate.
Qed.

Lemma normalized_tag_slash (tag : string) (w : world) :
  issubset tag valid_chars = true ->
  normalized_tag ("/" ++ tag) w = (Ok ("/" ++ tag), w).
Proof.
  intros Hok. rewrite normalized_tag_eq.
  by assert (issubset ("/" ++ tag) valid_chars = true) as -> by exact Hok.
Qed.

(** C6. Normalization puts a slash in front of a tag exactly when the tag
    does not start with one; it is idempotent; a tag without the slash and
    the same tag with it are normalized to the same name, so that every
    creation or opening under the one behaves, in every state, as under the
    other. *)
Theorem tag_normalization_is_idempotent (tag : string) (w : world) :
  issubset tag valid_chars = true -> tag <> "" ->
  normalized_tag tag w
  = (Ok (if starts_with_slash tag then tag else "/" ++ tag), w)
  /\ (forall nm, normalized_tag tag w = (Ok nm, w) ->
        normalized_tag nm w = (Ok nm, w))
  /\ (starts_with_slash tag = false ->
      normalized_tag tag w = normalized_tag ("/" ++ tag) w
      /\ forall tc soi create w',
           ShmemRawArray tc soi tag create w'
           = ShmemRawArray tc soi ("/" ++ tag) create w').
Proof.
  intros Hok Hne. destruct tag as [|c rest]; [done|].
  assert (forall w0, normalized_tag (String c rest) w0
            = (Ok (if starts_with_slash (String c rest)
                   then String c rest else "/" ++ String c rest), w0)) as Hnorm.
  { intros w0. rewrite normalized_tag_eq, Hok. cbn [starts_with_slash].
    by destruct (Ascii.eqb c "/"). }
  destruct (starts_with_slash (String c rest)) eqn:Hs.
  - split_and!; [apply Hnorm | | done].
    intros nm Hnm. rewrite Hnorm in Hnm. apply (f_equal fst), Ok_inj in Hnm.
    subst nm. apply Hnorm.
  - assert (forall w0, normalized_tag (String c rest) w0
              = normalized_tag ("/" ++ String c rest) w0) as Heq.
    { intros w0. by rewrite Hnorm, normalized_tag_slash. }
    split_and!; [apply Hnorm | |].
    + intros nm Hnm. rewrite Hnorm in Hnm. apply (f_equal fst), Ok_inj in Hnm.
      subst nm. by apply normalized_tag_slash.
    + intros _. split; [apply Heq|]. intros tc soi create w'.
      by rewrite !ShmemRawArray_unfold, Heq.
Qed.

Lemma tag_normalization_is_idempotent_witness :
  issubset "foo" valid_chars = true
  /\ "foo" <> ""
  /\ normalized_tag "foo" empty_world = (Ok "/foo", empty_world)
  /\ normalized_tag "foo" empty_world = normalized_tag "/foo" empty_world.
Proof.
  split; [reflexivity|]. split; [done|].
  destruct (tag_normalization_is_idempotent "foo" empty_world)
    as (H1 & _ & H3); [reflexivity | done |].
  split; [exact H1|]. by apply H3.
Defined.

(** ** Sizes *)

Lemma new_open_existing_zero tag w o bytes :
  shm_names w !! tag = Some o -> shm_objects w !! o = Some bytes ->
  let m := fresh (dom (mappings w)) in
  new tag 0 false w =
    if decide (bytes = []) then
      (Raise (ValueError "cannot mmap an empty file"),
       World (shm_names w) (shm_objects w)
             (<[fresh (dom (fd_table w)) := o]> (fd_table w))
             (mappings w) (stderr w))
    else
      (Ok (handle (Some {| name := tag; fd := -1 |}) (Some m) false 0),
       World (shm_names w) (shm_objects w) (fd_table w)
             (<[m := (o, Z.of_nat (length bytes))]> (mappings w)) (stderr w)).
Proof.
  intros Hn Ho m. rewrite new_unfold, flag_of_false.
  replace ((0 <=? 0) && (0 <? maxsize)) with true by reflexivity.
  erewrite SharedMemory_open_existing by done. rewrite Z.eqb_refl.
  unfold SharedMemory_size. cbn [fd].
  erewrite fstat_size_ok; wsimpl; [| apply lookup_insert_eq | done].
  destruct (decide (bytes = [])) as [->|Hne].
  - cbn [length Z.of_nat].
    erewrite mmap_mmap_empty; wsimpl; [| apply lookup_insert_eq | done].
    unfold release, unraisable, __del__, handle, bind, ret. by cbn.
  - erewrite mmap_mmap_ok; wsimpl; [| apply lookup_insert_eq | done | done].
    erewrite close_fd_ok; wsimpl; [| apply lookup_insert_eq].
    rewrite delete_insert_id by apply not_elem_of_dom, is_fresh. done.
Qed.

(** C7, as the code has it.  The range check lets through exactly the sizes
    of [0, sys.maxsize); every such size but zero can be created under a
    fresh name and opened again; a zero-length segment passes the check and
    then cannot be mapped, so that its creation fails, the name it had just
    been given is removed again, and opening a zero-length segment fails as
    well. *)
Theorem zero_length_segment_cannot_be_mapped (tag : string) (w : world) :
  shm_names w !! tag = None ->
  (forall sz create, ~ (0 <= sz < maxsize) ->
     new tag sz create w = (Raise AssertionError, w))
  /\ (forall sz, 0 < sz < maxsize ->
        exists creator w1 opener w2,
          new tag sz true w = (Ok creator, w1)
          /\ new tag sz false w1 = (Ok opener, w2))
  /\ (exists w',
        new tag 0 true w = (Raise (ValueError "cannot mmap an empty file"), w')
        /\ shm_names w' = shm_names w
        /\ mappings w' = mappings w)
  /\ (forall o w0,
        shm_names w0 !! tag = Some o -> shm_objects w0 !! o = Some [] ->
        fst (new tag 0 false w0) = Raise (ValueError "cannot mmap an empty file")).
Proof.
  intros Hfree. split_and!.
  - intros sz create Hout. by apply new_out_of_range.
  - intros sz Hsz. eexists _, _, _, _.
    split; [by apply new_create_fresh|].
    erewrite (new_open_existing tag sz _ (fresh (dom (shm_objects w)))
                (replicate (Z.to_nat sz) 0));
      [done | done | wsimpl; apply lookup_insert_eq..].
  - pose proof (new_create_fresh_zero tag w Hfree) as Hzero. cbv zeta in Hzero.
    eexists. split; [exact Hzero|]. by split.
  - intros o w0 Hn Ho. erewrite new_open_existing_zero by done.
    by rewrite decide_True.
Qed.

Lemma zero_length_segment_cannot_be_mapped_witness :
  shm_names empty_world !! "/z" = None
  /\ fst (new "/z" 0 true empty_world)
     = Raise (ValueError "cannot mmap an empty file")
  /\ exists creator w1 opener w2,
       new "/z" 8 true empty_world = (Ok creator, w1)
       /\ new "/z" 8 false w1 = (Ok opener, w2).
Proof.
  split; [reflexivity|].
  destruct (zero_length_segment_cannot_be_mapped "/z" empty_world)
    as (_ & Hpos & (w' & Hzero & _) & _); [reflexivity|].
  split; [by rewrite Hzero|]. apply Hpos. unfold maxsize. lia.
Defined.

Lemma ShmemRawArray_open_by_count tc n tag w nm t o bytes :
  normalized_tag tag w = (Ok nm, w) -> resolve_type tc = Some t ->
  0 < n -> n * sizeof t < maxsize ->
  shm_names w !! nm = Some o -> shm_objects w !! o = Some bytes ->
  let m := fresh (dom (mappings w)) in
  ShmemRawArray tc (SizeInt n) tag false w =
    (Ok {| a_type := t; a_length := n; a_address := m;
           _buffer := Some (handle (Some {| name := nm; fd := -1 |}) (Some m)
                              false (n * sizeof t)) |},
     World (shm_names w)
           (<[o := resize (Z.to_nat (n * sizeof t)) 0 bytes]> (shm_objects w))
           (fd_table w)
           (<[m := (o, n * sizeof t)]> (mappings w))
           (stderr w)).
Proof.
  intros Htag Ht Hn Hsz Hname Hobj m. pose proof (sizeof_pos t).
  rewrite ShmemRawArray_unfold, Htag. cbn [count_of].
  rewrite (type_mul_ok _ t) by (done || lia). cbn [ctypes_sizeof].
  erewrite new_open_existing by (done || lia).
  unfold holding, bind at 1.
  erewrite get_address_ok; wsimpl; [| apply lookup_insert_eq | apply lookup_insert_eq].
  rewrite length_resize, Z2Nat.id, Z.eqb_refl by lia.
  by unfold bind, lift_result, ret.
Qed.

(** C8, as the code has it.  Opening an existing segment for a positive
    number of bytes does not compare the size the segment has with the size
    expected: the segment is cut or zero-extended to the expected size and
    the array is returned.  The size assertion of [get_address] can only
    fail for an expected size of zero. *)
Theorem opening_resizes_instead_of_rejecting
    (tc : typecode_or_type) (n : Z) (tag nm : string) (t : ctype)
    (o : nat) (bytes : list Z) (w : world) :
  normalized_tag tag w = (Ok nm, w) -> resolve_type tc = Some t ->
  n * sizeof t < maxsize ->
  shm_names w !! nm = Some o -> shm_objects w !! o = Some bytes ->
  (0 < n ->
   exists obj w',
     ShmemRawArray tc (SizeInt n) tag false w = (Ok obj, w')
     /\ a_length obj = n
     /\ shm_objects w' !! o = Some (resize (Z.to_nat (n * sizeof t)) 0 bytes))
  /\ (n = 0 -> bytes <> [] ->
      ShmemRawArray tc (SizeInt n) tag false w = (Raise SizeMismatch, w)).
Proof.
  intros Htag Ht Hsz Hname Hobj. split.
  - intros Hn. eexists _, _.
    split; [by eapply ShmemRawArray_open_by_count|].
    split; [done|]. wsimpl. apply lookup_insert_eq.
  - intros -> Hne. rewrite ShmemRawArray_unfold, Htag. cbn [count_of].
    rewrite (type_mul_ok _ t) by (done || lia). cbn [ctypes_sizeof].
    rewrite Z.mul_0_l. erewrite new_open_existing_zero by done.
    rewrite decide_False by done.
    unfold holding, bind at 1.
    erewrite get_address_ok; wsimpl; [| apply lookup_insert_eq | done].
    destruct (Z.eqb_spec (Z.of_nat (length bytes)) 0) as [E|_].
    { destruct bytes; [done | cbn in E; lia]. }
    rewrite release_full. wsimpl. cbn [andb].
    rewrite delete_insert_id by apply not_elem_of_dom, is_fresh.
    by destruct w.
Qed.

(** The failing input: a segment made for two doubles is opened for four. *)
Lemma opening_resizes_instead_of_rejecting_witness :
  exists creator w1 opener w2,
    ShmemRawArray (Typecode "d") (SizeInt 2) "/seg" true empty_world
    = (Ok creator, w1)
    /\ shm_objects w1 !! 0%nat = Some (replicate 16 0)
    /\ ShmemRawArray (Typecode "d") (SizeInt 4) "/seg" false w1 = (Ok opener, w2)
    /\ a_length opener = 4
    /\ shm_objects w2 !! 0%nat = Some (replicate 32 0).
Proof.
  eexists _, _. 
  assert (ShmemRawArray (Typecode "d") (SizeInt 2) "/seg" true empty_world
          = (Ok {| a_type := c_double; a_length := 2; a_address := 0%nat;
                   _buffer := Some (handle (Some {| name := "/seg"; fd := -1 |})
                                      (Some 0%nat) true 16) |},
             World {[ "/seg" := 0%nat ]} {[ 0%nat := replicate 16 0 ]} ∅
               {[ 0%nat := (0%nat, 16) ]} [])) as Hcreate
    by (vm_compute; reflexivity).
  destruct (opening_resizes_instead_of_rejecting (Typecode "d") 4 "/seg" "/seg"
              c_double 0%nat (replicate 16 0)
              (World {[ "/seg" := 0%nat ]} {[ 0%nat := replicate 16 0 ]} ∅
                 {[ 0%nat := (0%nat, 16) ]} []))
    as [Hopen _]; [reflexivity..|].
  destruct Hopen as (opener & w2 & Hopen & Hlen & Hobj); [lia|].
  exists opener, w2. split; [exact Hcreate|].
  split; [reflexivity|]. by split_and!.
Defined.

(** ** Scenarios *)

(** A segment [/weights] of four doubles is created from an initializer and
    opened for four doubles: the opener reads the creator's values, and sees
    what the creator writes afterwards.  Once the creator is released the
    name is gone and a further opening fails with [NotFound]. *)
Example weights_scenario :
  exists creator w1 opener w2 w3 w4,
    ShmemRawArray (Typecode "d") (Initializer weights) "/weights" true empty_world
    = (Ok creator, w1)
    /\ ShmemRawArray (Typecode "d") (SizeInt 4) "/weights" false w1
       = (Ok opener, w2)
    /\ Array_getitem opener 2 w2 = (Ok (PyFloat 0x4008000000000000), w2)
    /\ Array_setitem creator 2 (PyInt 7) w2 = (Ok tt, w3)
    /\ Array_getitem opener 2 w3 = (Ok (PyFloat 0x401C000000000000), w3)
    /\ ctypes_array_release creator w3 = (Ok tt, w4)
    /\ ShmemRawArray (Typecode "d") (SizeInt 4) "/weights" false w4
       = (Raise NotFound, w4).
Proof.
  eexists _, _, _, _, _, _.
  split; [vm_compute; reflexivity|]. split; [vm_compute; reflexivity|].
  split; [vm_compute; reflexivity|]. split; [vm_compute; reflexivity|].
  split; [vm_compute; reflexivity|]. split; [vm_compute; reflexivity|].
  vm_compute. reflexivity.
Qed.

(** A segment created as [foo] is the one opened as [/foo]: both arrays are
    mapped on the same object. *)
Example create_foo_open_slash_foo :
  exists creator w1 opener w2 o,
    ShmemRawArray (Typecode "i") (SizeInt 3) "foo" true empty_world
    = (Ok creator, w1)
    /\ ShmemRawArray (Typecode "i") (SizeInt 3) "/foo" false w1 = (Ok opener, w2)
    /\ mappings w2 !! a_address creator = Some (o, 12)
    /\ mappings w2 !! a_address opener = Some (o, 12)
    /\ a_address creator <> a_address opener.
Proof.
  eexists _, _, _, _, _.
  split; [vm_compute; reflexivity|]. split; [vm_compute; reflexivity|].
  split; [vm_compute; reflexivity|]. split; [vm_compute; reflexivity|].
  vm_compute. discriminate.
Qed.

(** * Further properties *)

(** ** What a construction leaves behind *)


















(** ** Faults that cannot happen *)

Ltac never_fault_by_cases Hf :=
  intros ?; repeat (case_match; cbn [fst]); cbn [fst];
  intros ?; destruct Hf; simplify_eq.

Lemma never_fault_SharedMemory e0 nm flags sz :
  fault e0 -> never_raises e0 (SharedMemory nm flags sz).
Proof.
  intros Hf. unfold SharedMemory.
  case_match; [apply never_raise; intros ?; destruct Hf; simplify_eq|].
  apply never_bind; [unfold shm_open; never_fault_by_cases Hf|]. intros d.
  apply never_bind; [|intros; apply never_ret].
  case_match; [apply never_ret|]. unfold ftruncate. never_fault_by_cases Hf.
Qed.

Lemma never_fault_new e0 tag sz create :
  fault e0 -> never_raises e0 (new tag sz create).
Proof.
  intros Hf w. rewrite new_unfold.
  pose proof (never_fault_SharedMemory e0 tag (flag_of create) sz Hf w) as H1.
  case_match; [|cbn; intros ?; destruct Hf; simplify_eq].
  destruct (SharedMemory _ _ _ w) as [[mem|e] w1]; [|cbn in *; congruence].
  unfold SharedMemory_size.
  assert (never_raises e0 (fstat_size (fd mem))) as H2
    by (unfold fstat_size; never_fault_by_cases Hf).
  specialize (H2 w1).
  destruct (fstat_size _ w1) as [[n|e] w2]; [|cbn in *; congruence].
  assert (never_raises e0 (mmap_mmap (fd mem) n)) as H3
    by (unfold mmap_mmap; never_fault_by_cases Hf).
  specialize (H3 w2).
  destruct (mmap_mmap _ _ w2) as [[m|e] w3]; [|cbn in *; congruence].
  assert (never_raises e0 (SharedMemory_close_fd mem)) as H4
    by (unfold SharedMemory_close_fd; never_fault_by_cases Hf).
  specialize (H4 w3).
  destruct (SharedMemory_close_fd mem w3) as [[mem'|e] w4];
    [done | cbn in *; congruence].
Qed.

Lemma setfunc_raise t v e :
  setfunc t v = Raise e -> e = TypeError \/ e = OverflowError.
Proof.
  unfold setfunc. intros H.
  destruct t, v; try (left; congruence);
    repeat (case_match; try (left; congruence));
    match goal with
    | E : double_of_int _ = Raise _ |- _ => apply double_of_int_raise in E
    end; right; congruence.
Qed.

(** Assigning the initial values stays inside the mapped object. *)
Lemma Array_init_from_no_fault obj o L vs : forall i w e w',
  mappings w !! a_address obj = Some (o, L) ->
  (exists bytes, shm_objects w !! o = Some bytes /\ Z.of_nat (length bytes) = L) ->
  0 <= i -> (i + Z.of_nat (length vs)) * sizeof (a_type obj) <= L ->
  Array_init_from obj i vs w = (Raise e, w') -> ~ fault e.
Proof.
  induction vs as [|v vs IH]; intros i w e w' Hm (bytes & Ho & Hlen) Hi Hb H;
    cbn [Array_init_from length] in *; [by unfold ret in H|].
  pose proof (sizeof_pos (a_type obj)) as Hs.
  unfold bind in H.
  destruct (Array_setitem obj i v w) as [[[]|e1] w1] eqn:E1.
  - pose proof (Array_setitem_layout _ _ _ _ _ E1) as (_ & Hm1 & _ & _ & Hl1).
    eapply (IH (i + 1) w1); [by rewrite Hm1 | | lia | | exact H].
    + specialize (Hl1 o). rewrite Ho in Hl1.
      destruct (shm_objects w1 !! o) as [bytes1|]; [|done].
      exists bytes1. split; [done|]. cbn in Hl1. simplify_eq. lia.
    + nia.
  - simplify_eq. revert E1. unfold Array_setitem.
    destruct (Z.ltb_spec i 0); [lia|].
    destruct (_ || _); [unfold raise; intros; simplify_eq; by intros []|].
    unfold bind, lift_result.
    destruct (setfunc (a_type obj) v) as [bs|e1] eqn:Ev.
    + pose proof (setfunc_length _ _ _ Ev).
      erewrite mem_write_ok; [done | done | done | nia | nia].
    + intros; simplify_eq. apply setfunc_raise in Ev. by intros [|]; destruct Ev; simplify_eq.
Qed.

Lemma ShmemRawArray_no_fault tc soi tag create w e :
  fst (ShmemRawArray tc soi tag create w) = Raise e -> ~ fault e.
Proof.
  rewrite ShmemRawArray_unfold, normalized_tag_eq. intros H Hf.
  destruct (issubset tag valid_chars); [|cbn in H; destruct Hf; simplify_eq].
  destruct tag as [|c rest]; [cbn in H; destruct Hf; simplify_eq|].
  destruct (resolve_type tc) as [t|]; cbn [type_mul ctypes_sizeof] in H;
    [|cbn in H; destruct Hf; simplify_eq].
  destruct (Z.ltb_spec (count_of soi) 0); [cbn in H; destruct Hf; simplify_eq|].
  destruct (_ <? _); [cbn in H; destruct Hf; simplify_eq|].
  cbn [ctypes_sizeof] in H.
  match type of H with
  | context [new ?nm ?sz create w] =>
      pose proof (never_fault_new e nm sz create Hf w) as Hnew;
      destruct (new nm sz create w) as [[buffer|e0] w1] eqn:Enew
  end; [|cbn in *; congruence].
  clear Hnew.
  apply new_ok_inv in Enew as (m & o & bytes & -> & _ & _ & Ho & Hm & Hne & _).
  unfold holding, bind at 1 in H. erewrite get_address_ok in H by done.
  destruct (Z.eqb_spec (Z.of_nat (length bytes)) (count_of soi * sizeof t))
    as [Hlen|]; [|cbn in H; destruct Hf; simplify_eq].
  unfold bind at 1, lift_result at 1 in H. cbn [from_address] in H.
  unfold bind at 1 in H. destruct soi as [n|values]; [cbn in H; done|].
  match type of H with
  | context [Array_init ?ob values w1] =>
      destruct (Array_init ob values w1) as [[[]|e1] w2] eqn:Einit
  end; [cbn in H; done|].
  cbn in H. simplify_eq.
  eapply (Array_init_from_no_fault _ o _ values 0 w1); [| | | | exact Einit | exact Hf];
    cbn [set_buffer a_address a_type a_length count_of] in *.
  - exact Hm.
  - by exists bytes.
  - lia.
  - lia.
Qed.

(** X2. No construction ever faults: whatever the arguments and whatever
    the state, neither a typed array nor a shaped view ends in an access
    outside mapped memory or in the use of an attribute of the handle that
    was never set. *)
Theorem construction_never_faults :
  (forall tc soi tag create w,
      fst (ShmemRawArray tc soi tag create w) <> Raise SIGSEGV
      /\ fst (ShmemRawArray tc soi tag create w) <> Raise AttributeError)
  /\ (forall dtype shape tag create w,
        fst (NpShmemArray dtype shape tag create w) <> Raise SIGSEGV
        /\ fst (NpShmemArray dtype shape tag create w) <> Raise AttributeError).
Proof.
  assert (forall tc soi tag create w e,
            fault e -> fst (ShmemRawArray tc soi tag create w) <> Raise e) as Hraw.
  { intros * Hf H. by eapply ShmemRawArray_no_fault. }
  assert (forall dtype shape tag create w e,
            fault e -> fst (NpShmemArray dtype shape tag create w) <> Raise e) as Hnp.
  { intros * Hf. unfold NpShmemArray.
    destruct (dict_get NP_TO_C_TYPE dtype None) as [ct|];
      [|cbn; intros ?; destruct Hf; simplify_eq].
    apply never_bind; [intros w0; by apply Hraw|]. intros shmem.
    apply never_holding, never_lift_result. unfold reshape.
    intros ?. repeat case_match; destruct Hf; simplify_eq. }
  split; intros; split; (apply Hraw || apply Hnp); by (left + right).
Qed.

(** ** Reading and writing through arrays *)

Lemma store_read_same (bytes e : list Z) (off : nat) :
  (off + length e <= length bytes)%nat ->
  take (length e) (drop off (take off bytes ++ e ++ drop (off + length e) bytes))
  = e.
Proof.
  intros H. rewrite drop_app_length' by (rewrite length_take; lia).
  by rewrite take_app_length.
Qed.

Lemma store_read_other (bytes e : list Z) (off a sz : nat) :
  (off + length e <= length bytes)%nat ->
  (a + sz <= off)%nat \/ (off + length e <= a)%nat ->
  take sz (drop a (take off bytes ++ e ++ drop (off + length e) bytes))
  = take sz (drop a bytes).
Proof.
  intros H [Hlt|Hgt].
  - rewrite drop_app_le by (rewrite length_take; lia).
    rewrite take_app_le by (rewrite length_drop, length_take; lia).
    rewrite !take_drop_commute, take_take. do 2 f_equal. lia.
  - rewrite app_assoc.
    replace a with (length (take off bytes ++ e) + (a - (off + length e)))%nat
      at 1 by (rewrite length_app, length_take; lia).
    rewrite drop_app_add, drop_drop. do 2 f_equal. lia.
Qed.

Lemma Array_getitem_ok obj (i : Z) w o L bytes :
  mappings w !! a_address obj = Some (o, L) ->
  shm_objects w !! o = Some bytes ->
  a_length obj * sizeof (a_type obj) <= Z.min L (Z.of_nat (length bytes)) ->
  0 <= i < a_length obj ->
  Array_getitem obj i w =
    (Ok (getfunc (a_type obj)
           (take (Z.to_nat (sizeof (a_type obj)))
              (drop (Z.to_nat (i * sizeof (a_type obj))) bytes))), w).
Proof.
  intros Hm Ho Hb Hi. pose proof (sizeof_pos (a_type obj)).
  unfold Array_getitem. destruct (Z.ltb_spec i 0); [lia|].
  destruct (Z.ltb_spec i 0); [lia|].
  destruct (Z.leb_spec (a_length obj) i); [lia|]. cbn [orb].
  unfold bind, ret. by erewrite mem_read_ok; [| done | done | nia | nia].
Qed.

(** A value assigned through one array is read through any array of the
    same element type placed on the same object, and the other elements are
    as before. *)
Lemma shared_write_read obj1 obj2 t o L bytes w i v e :
  a_type obj1 = t -> a_type obj2 = t ->
  mappings w !! a_address obj1 = Some (o, L) ->
  mappings w !! a_address obj2 = Some (o, L) ->
  shm_objects w !! o = Some bytes -> Z.of_nat (length bytes) = L ->
  a_length obj1 * sizeof t <= L -> a_length obj2 * sizeof t <= L ->
  0 <= i < a_length obj1 -> setfunc t v = Ok e ->
  exists w',
    Array_setitem obj1 i v w = (Ok tt, w')
    /\ same_layout w w'
    /\ (i < a_length obj2 ->
        Array_getitem obj2 i w' = (Ok (getfunc t e), w'))
    /\ (forall j, 0 <= j < a_length obj2 -> j <> i ->
          fst (Array_getitem obj2 j w') = fst (Array_getitem obj2 j w)).
Proof.
  intros Ht1 Ht2 Hm1 Hm2 Ho Hlen Hb1 Hb2 Hi Hv.
  pose proof (sizeof_pos t) as Hs. pose proof (setfunc_length _ _ _ Hv) as He.
  assert (0 <= i * sizeof t) as Hoff by nia.
  assert (Array_setitem obj1 i v w =
            (Ok tt,
             set_shm_objects
               <[o := (take (Z.to_nat (i * sizeof t)) bytes ++ e
                       ++ drop (Z.to_nat (i * sizeof t) + length e) bytes)%list]> w))
    as Hset.
  { unfold Array_setitem. destruct (Z.ltb_spec i 0); [lia|].
    destruct (Z.ltb_spec i 0); [lia|].
    destruct (Z.leb_spec (a_length obj1) i); [lia|]. cbn [orb].
    unfold bind, lift_result. rewrite Ht1, Hv.
    erewrite mem_write_ok; [| done | done | nia | nia].
    by replace (Z.to_nat (i * sizeof t + Z.of_nat (length e)))
      with (Z.to_nat (i * sizeof t) + length e)%nat by lia. }
  eexists. split; [exact Hset|].
  split; [by eapply Array_setitem_layout|].
  assert (Z.to_nat (i * sizeof t) + length e <= length bytes)%nat by nia.
  set (bytes' := (take (Z.to_nat (i * sizeof t)) bytes ++ e
                  ++ drop (Z.to_nat (i * sizeof t) + length e) bytes)%list).
  assert (length bytes' = length bytes) as Hlen'.
  { unfold bytes'. rewrite !length_app, length_take, length_drop. lia. }
  assert (forall j, 0 <= j < a_length obj2 ->
            Array_getitem obj2 j (set_shm_objects <[o := bytes']> w)
            = (Ok (getfunc t (take (Z.to_nat (sizeof t))
                                (drop (Z.to_nat (j * sizeof t)) bytes'))),
               set_shm_objects <[o := bytes']> w)) as Hafter.
  { intros j Hj. rewrite <- Ht2.
    apply (Array_getitem_ok obj2 j _ o L bytes'); wsimpl;
      [done | apply lookup_insert_eq | rewrite Ht2; lia | done]. }
  split.
  - intros Hi2. rewrite Hafter by lia. do 3 f_equal.
    replace (Z.to_nat (sizeof t)) with (length e) by lia.
    by apply store_read_same.
  - intros j Hj Hne. rewrite Hafter by done.
    rewrite (Array_getitem_ok obj2 j w o L bytes) by (done || (rewrite Ht2; lia)).
    cbn [fst]. rewrite Ht2. do 2 f_equal.
    apply store_read_other; [done|]. nia.
Qed.

(** X3. A returned array is wholly accessible in the state it is returned
    in: it has at least one element; every element can be read; every
    element can be assigned any value its type accepts, after which it
    reads back as the stored form of that value while the other elements
    read as before. *)
Theorem returned_array_is_accessible
    (tc : typecode_or_type) (soi : size_or_initializer) (tag : string)
    (create : bool) (w : world) (obj : ctypes_array) (w' : world) :
  ShmemRawArray tc soi tag create w = (Ok obj, w') ->
  0 < a_length obj
  /\ forall i, 0 <= i < a_length obj ->
       (exists pv, Array_getitem obj i w' = (Ok pv, w'))
       /\ forall v e, setfunc (a_type obj) v = Ok e ->
            exists w'',
              Array_setitem obj i v w' = (Ok tt, w'')
              /\ Array_getitem obj i w'' = (Ok (getfunc (a_type obj) e), w'')
              /\ forall j, 0 <= j < a_length obj -> j <> i ->
                   fst (Array_getitem obj j w'') = fst (Array_getitem obj j w').
Proof.
  intros H. apply ShmemRawArray_ok_inv in H
    as (nm & t & m & o & bytes & _ & _ & -> & Hsz & _ & Hm & Ho & Hlen).
  cbn [a_length a_type]. pose proof (sizeof_pos t). split; [nia|].
  intros i Hi. split.
  - eexists. eapply Array_getitem_ok; cbn [a_address a_length a_type]; [done..|lia|done].
  - intros v e Hv.
    edestruct (shared_write_read
                 {| a_type := t; a_length := count_of soi; a_address := m;
                    _buffer := Some (handle (Some {| name := nm; fd := -1 |})
                                       (Some m) create (count_of soi * sizeof t)) |}
                 {| a_type := t; a_length := count_of soi; a_address := m;
                    _buffer := Some (handle (Some {| name := nm; fd := -1 |})
                                       (Some m) create (count_of soi * sizeof t)) |}
                 t o (count_of soi * sizeof t) bytes w' i v e)
      as (w'' & Hset & _ & Hget & Hother); cbn [a_type a_length a_address];
      try done; try lia.
    cbn [a_type a_length a_address] in *.
    exists w''. split_and!; [done | apply Hget; lia | done].
Qed.

Lemma returned_array_is_accessible_witness :
  exists obj w' w'',
    ShmemRawArray (Typecode "h") (SizeInt 3) "t" true empty_world = (Ok obj, w')
    /\ Array_setitem obj 1 (PyInt (-5)) w' = (Ok tt, w'')
    /\ Array_getitem obj 1 w'' = (Ok (PyInt (-5)), w'')
    /\ fst (Array_getitem obj 2 w'') = fst (Array_getitem obj 2 w').
Proof.
  assert (exists obj w',
            ShmemRawArray (Typecode "h") (SizeInt 3) "t" true empty_world
            = (Ok obj, w') /\ a_length obj = 3 /\ a_type obj = c_short)
    as (obj & w' & Hnew & Hlen & Ht)
    by (eexists _, _; split_and!; vm_compute; reflexivity).
  destruct (returned_array_is_accessible _ _ _ _ _ _ _ Hnew) as [_ Hacc].
  destruct (Hacc 1) as [_ Hset]; [lia|].
  destruct (Hset (PyInt (-5)) (le_bytes 2 (-5))) as (w'' & H1 & H2 & H3);
    [by rewrite Ht|].
  exists obj, w', w''. split_and!; [done | done | | apply H3; lia].
  rewrite H2, Ht. reflexivity.
Defined.

(** ** Creators and openers *)

Lemma normalized_tag_any_state tag nm w w0 :
  normalized_tag tag w = (Ok nm, w) -> normalized_tag tag w0 = (Ok nm, w0).
Proof.
  rewrite !normalized_tag_eq. intros H. apply (f_equal fst) in H. cbn [fst] in *.
  by rewrite H.
Qed.

Lemma fresh_after_insert {A} (m : gmap nat A) (k : nat) (x : A) :
  fresh (dom (<[k := x]> m)) <> k.
Proof.
  intros E. pose proof (is_fresh (dom (<[k := x]> m))) as Hf.
  rewrite E in Hf. apply Hf. rewrite dom_insert_L. set_solver.
Qed.

(** Opening a segment for the size it has leaves its bytes alone and adds
    one mapping. *)
Lemma ShmemRawArray_open_matching tc n tag w nm t o bytes :
  normalized_tag tag w = (Ok nm, w) -> resolve_type tc = Some t ->
  0 < n -> n * sizeof t < maxsize ->
  shm_names w !! nm = Some o -> shm_objects w !! o = Some bytes ->
  Z.of_nat (length bytes) = n * sizeof t ->
  let m := fresh (dom (mappings w)) in
  ShmemRawArray tc (SizeInt n) tag false w =
    (Ok {| a_type := t; a_length := n; a_address := m;
           _buffer := Some (handle (Some {| name := nm; fd := -1 |}) (Some m)
                              false (n * sizeof t)) |},
     World (shm_names w) (shm_objects w) (fd_table w)
           (<[m := (o, n * sizeof t)]> (mappings w)) (stderr w)).
Proof.
  intros Htag Ht Hn Hsz Hname Hobj Hlen m.
  erewrite ShmemRawArray_open_by_count by done.
  rewrite resize_all_alt by lia. by rewrite insert_id.
Qed.

(** X4. A creator and an opener of the same segment work on the same memory
    through two mappings: the fresh segment reads as zero bytes through the
    opener, and whatever either of them assigns to an element the other
    reads at the same index, in the stored form of the value. *)
Theorem creator_and_opener_share_memory
    (tc : typecode_or_type) (n : Z) (tag nm : string) (t : ctype) (w : world) :
  normalized_tag tag w = (Ok nm, w) -> resolve_type tc = Some t ->
  0 < n -> n * sizeof t < maxsize -> shm_names w !! nm = None ->
  exists creator w1 opener w2,
    ShmemRawArray tc (SizeInt n) tag true w = (Ok creator, w1)
    /\ ShmemRawArray tc (SizeInt n) tag false w1 = (Ok opener, w2)
    /\ a_address creator <> a_address opener
    /\ (forall i, 0 <= i < n ->
          Array_getitem opener i w2
          = (Ok (getfunc t (replicate (Z.to_nat (sizeof t)) 0)), w2))
    /\ (forall i v e, 0 <= i < n -> setfunc t v = Ok e ->
          exists w3,
            Array_setitem creator i v w2 = (Ok tt, w3)
            /\ Array_getitem opener i w3 = (Ok (getfunc t e), w3))
    /\ (forall i v e, 0 <= i < n -> setfunc t v = Ok e ->
          exists w3,
            Array_setitem opener i v w2 = (Ok tt, w3)
            /\ Array_getitem creator i w3 = (Ok (getfunc t e), w3)).
Proof.
  intros Htag Ht Hn Hsz Hfree. pose proof (sizeof_pos t) as Hs.
  eexists _, _, _, _.
  split; [by apply ShmemRawArray_create_by_count|].
  split.
  { eapply ShmemRawArray_open_matching; wsimpl;
      [by eapply normalized_tag_any_state | done | done | done
      | apply lookup_insert_eq | apply lookup_insert_eq |].
    rewrite length_replicate. lia. }
  cbn [a_address].
  set (o := fresh (dom (shm_objects w))).
  set (ma := fresh (dom (mappings w))).
  set (maps1 := <[ma := (o, n * sizeof t)]> (mappings w)).
  set (mb := fresh (dom maps1)).
  assert (mb <> ma) as Hne by apply fresh_after_insert.
  set (w2 := World (<[nm := o]> (shm_names w))
               (<[o := replicate (Z.to_nat (n * sizeof t)) 0]> (shm_objects w))
               (fd_table w) (<[mb := (o, n * sizeof t)]> maps1) (stderr w)).
  assert (mappings w2 !! ma = Some (o, n * sizeof t)) as Hma.
  { unfold w2, maps1. wsimpl. rewrite lookup_insert_ne by done.
    apply lookup_insert_eq. }
  assert (mappings w2 !! mb = Some (o, n * sizeof t)) as Hmb
    by (unfold w2; wsimpl; apply lookup_insert_eq).
  assert (shm_objects w2 !! o = Some (replicate (Z.to_nat (n * sizeof t)) 0))
    as Ho by (unfold w2; wsimpl; apply lookup_insert_eq).
  assert (Z.of_nat (length (replicate (Z.to_nat (n * sizeof t)) 0))
          = n * sizeof t) as Hlen by (rewrite length_replicate; lia).
  split_and!.
  - intros E. apply Hne. symmetry. exact E.
  - intros i Hi. erewrite Array_getitem_ok; cbn [a_address a_type a_length];
      [| exact Hmb | exact Ho | lia | done].
    do 3 f_equal. rewrite drop_replicate, take_replicate. f_equal. nia.
  - intros i v e Hi Hv.
    edestruct (shared_write_read
                 {| a_type := t; a_length := n; a_address := ma;
                    _buffer := Some (handle (Some {| name := nm; fd := -1 |})
                                       (Some ma) true (n * sizeof t)) |}
                 {| a_type := t; a_length := n; a_address := mb;
                    _buffer := Some (handle (Some {| name := nm; fd := -1 |})
                                       (Some mb) false (n * sizeof t)) |}
                 t o (n * sizeof t) (replicate (Z.to_nat (n * sizeof t)) 0)
                 w2 i v e)
      as (w3 & Hset & _ & Hget & _); cbn [a_type a_length a_address];
      try done; try lia.
    cbn [a_type a_length a_address] in *.
    exists w3. split; [done|]. apply Hget. lia.
  - intros i v e Hi Hv.
    edestruct (shared_write_read
                 {| a_type := t; a_length := n; a_address := mb;
                    _buffer := Some (handle (Some {| name := nm; fd := -1 |})
                                       (Some mb) false (n * sizeof t)) |}
                 {| a_type := t; a_length := n; a_address := ma;
                    _buffer := Some (handle (Some {| name := nm; fd := -1 |})
                                       (Some ma) true (n * sizeof t)) |}
                 t o (n * sizeof t) (replicate (Z.to_nat (n * sizeof t)) 0)
                 w2 i v e)
      as (w3 & Hset & _ & Hget & _); cbn [a_type a_length a_address];
      try done; try lia.
    cbn [a_type a_length a_address] in *.
    exists w3. split; [done|]. apply Hget. lia.
Qed.

Lemma creator_and_opener_share_memory_witness :
  normalized_tag "t" empty_world = (Ok "/t", empty_world)
  /\ exists creator w1 opener w2 w3,
       ShmemRawArray (Typecode "I") (SizeInt 2) "t" true empty_world
       = (Ok creator, w1)
       /\ ShmemRawArray (Typecode "I") (SizeInt 2) "t" false w1 = (Ok opener, w2)
       /\ Array_getitem opener 1 w2 = (Ok (PyInt 0), w2)
       /\ Array_setitem creator 1 (PyInt 9) w2 = (Ok tt, w3)
       /\ Array_getitem opener 1 w3 = (Ok (PyInt 9), w3).
Proof.
  split; [reflexivity|].
  destruct (creator_and_opener_share_memory (Typecode "I") 2 "t" "/t" c_uint
              empty_world)
    as (creator & w1 & opener & w2 & Hc & Ho & _ & Hzero & Hcw & _);
    [reflexivity | reflexivity | lia | reflexivity | reflexivity |].
  destruct (Hcw 1 (PyInt 9) (le_bytes 4 9)) as (w3 & Hset & Hget);
    [lia | reflexivity |].
  exists creator, w1, opener, w2, w3.
  split_and!; [done | done | | done | exact Hget].
  rewrite Hzero by lia. reflexivity.
Defined.

(** ** Life cycles *)

Lemma stored_lengths t values es :
  Forall2 (fun v e => setfunc t v = Ok e) values es ->
  Forall (fun e => Z.of_nat (length e) = sizeof t) es
  /\ length es = length values
  /\ Z.of_nat (length (concat es)) = Z.of_nat (length values) * sizeof t.
Proof.
  intros Hes.
  assert (Forall (fun e => Z.of_nat (length e) = sizeof t) es) as Hall.
  { induction Hes as [|???? Hv]; constructor; [|done]. by eapply setfunc_length. }
  split; [done|]. split; [by rewrite (Forall2_length _ _ _ Hes)|].
  pose proof (sizeof_pos t).
  rewrite (length_concat_chunks (Z.to_nat (sizeof t))).
  - rewrite <- (Forall2_length _ _ _ Hes). nia.
  - eapply Forall_impl; [exact Hall|]. cbn. lia.
Qed.

(** A segment created from an initializer and then opened, with the states
    in between. *)
Lemma create_then_open tc values es tag nm t w :
  normalized_tag tag w = (Ok nm, w) -> resolve_type tc = Some t ->
  values <> [] -> Z.of_nat (length values) * sizeof t < maxsize ->
  shm_names w !! nm = None ->
  Forall2 (fun v e => setfunc t v = Ok e) values es ->
  let n := Z.of_nat (length values) in
  let o := fresh (dom (shm_objects w)) in
  let ma := fresh (dom (mappings w)) in
  let maps1 := <[ma := (o, n * sizeof t)]> (mappings w) in
  let mb := fresh (dom maps1) in
  let w1 := World (<[nm := o]> (shm_names w)) (<[o := concat es]> (shm_objects w))
              (fd_table w) maps1 (stderr w) in
  let w2 := World (<[nm := o]> (shm_names w)) (<[o := concat es]> (shm_objects w))
              (fd_table w) (<[mb := (o, n * sizeof t)]> maps1) (stderr w) in
  let w3 := World (shm_names w) (<[o := concat es]> (shm_objects w))
              (fd_table w) (<[mb := (o, n * sizeof t)]> (mappings w)) (stderr w) in
  ShmemRawArray tc (Initializer values) tag true w
  = (Ok (array_on t n ma nm true), w1)
  /\ ShmemRawArray tc (SizeInt n) tag false w1 = (Ok (array_on t n mb nm false), w2)
  /\ ctypes_array_release (array_on t n ma nm true) w2 = (Ok tt, w3)
  /\ mb <> ma.
Proof.
  intros Htag Ht Hne Hsz Hfree Hes n o ma maps1 mb w1 w2 w3.
  destruct (stored_lengths _ _ _ Hes) as (_ & _ & Hlen).
  assert (0 < n) by (destruct values; [done | unfold n; cbn [length]; lia]).
  assert (mb <> ma) as Hab by apply fresh_after_insert.
  split; [by apply ShmemRawArray_create_by_initializer|].
  split.
  { eapply (ShmemRawArray_open_matching tc n tag w1 nm t o (concat es));
      unfold w1; wsimpl;
      [by eapply normalized_tag_any_state | done | done | done
      | apply lookup_insert_eq | apply lookup_insert_eq | done]. }
  split; [|done].
  unfold ctypes_array_release, array_on. cbn [_buffer].
  rewrite release_full. unfold w2, w3, maps1. wsimpl. cbn [name].
  rewrite lookup_insert_eq, bool_decide_eq_false_2 by done. cbn [andb].
  rewrite (delete_insert_id (shm_names w)) by done.
  rewrite delete_insert_ne by (intros E; by apply Hab).
  rewrite (delete_insert_id (mappings w)); [done|].
  apply not_elem_of_dom, is_fresh.
Qed.

(** What one element of a list that was stored whole reads back as. *)
Lemma stored_element t values es (i : nat) v :
  Forall2 (fun v e => setfunc t v = Ok e) values es ->
  values !! i = Some v -> exists e, es !! i = Some e /\ setfunc t v = Ok e.
Proof.
  intros Hes Hv. destruct (Forall2_lookup_l _ _ _ _ _ Hes Hv) as (e & He & Hset).
  by exists e.
Qed.

(** X5. A mapped view outlives the name.  When the creator of a segment is
    released while an opener still holds the segment, the name is unlinked
    without any error report, an opening under the name then fails with
    [NotFound], and the opener goes on reading every value the creator had
    stored. *)
Theorem mapped_view_outlives_the_name
    (tc : typecode_or_type) (values : list pyval) (tag nm : string)
    (t : ctype) (w : world) :
  values <> [] ->
  normalized_tag tag w = (Ok nm, w) ->
  resolve_type tc = Some t ->
  Z.of_nat (length values) * sizeof t < maxsize ->
  shm_names w !! nm = None ->
  Forall (fun v => exists e, setfunc t v = Ok e) values ->
  exists creator w1 opener w2 w3,
    ShmemRawArray tc (Initializer values) tag true w = (Ok creator, w1)
    /\ ShmemRawArray tc (SizeInt (Z.of_nat (length values))) tag false w1
       = (Ok opener, w2)
    /\ ctypes_array_release creator w2 = (Ok tt, w3)
    /\ shm_names w3 = shm_names w
    /\ stderr w3 = stderr w
    /\ ShmemRawArray tc (SizeInt (Z.of_nat (length values))) tag false w3
       = (Raise NotFound, w3)
    /\ (forall (i : nat) v, values !! i = Some v ->
          exists e, setfunc t v = Ok e
            /\ Array_getitem opener (Z.of_nat i) w3 = (Ok (getfunc t e), w3)).
Proof.
  intros Hne Htag Ht Hsz Hfree Hall. destruct (Forall_stored _ _ Hall) as [es Hes].
  destruct (stored_lengths _ _ _ Hes) as (Hlens & Hlen & _).
  pose proof (create_then_open tc values es tag nm t w Htag Ht Hne Hsz Hfree Hes)
    as H.
  cbv zeta in H. destruct H as (Hcreate & Hopen & Hrelease & Hab).
  eexists _, _, _, _, _. split; [exact Hcreate|]. split; [exact Hopen|].
  split; [exact Hrelease|]. wsimpl. split; [done|]. split; [done|].
  split.
  - eapply typed_array_creation_and_opening_errors;
      [by eapply normalized_tag_any_state | done | cbn [count_of]; lia
      | done | by wsimpl].
  - intros i v Hv. destruct (stored_element _ _ _ _ _ Hes Hv) as (e & He & Hset).
    exists e. split; [done|].
    apply (Array_getitem_chunk (array_on t _ _ nm false) i _
             (fresh (dom (shm_objects w))) es e);
      unfold array_on; cbn [a_address a_length a_type]; wsimpl;
      [apply lookup_insert_eq | apply lookup_insert_eq | done
      | by rewrite Hlen | done].
Qed.

Lemma mapped_view_outlives_the_name_witness :
  normalized_tag "t" empty_world = (Ok "/t", empty_world)
  /\ exists creator w1 opener w2 w3,
       ShmemRawArray (Typecode "B") (Initializer [PyInt 7; PyInt 300]) "t" true
         empty_world = (Ok creator, w1)
       /\ ShmemRawArray (Typecode "B") (SizeInt 2) "t" false w1 = (Ok opener, w2)
       /\ ctypes_array_release creator w2 = (Ok tt, w3)
       /\ ShmemRawArray (Typecode "B") (SizeInt 2) "t" false w3
          = (Raise NotFound, w3)
       /\ Array_getitem opener 0 w3 = (Ok (PyInt 7), w3)
       /\ Array_getitem opener 1 w3 = (Ok (PyInt 44), w3).
Proof.
  split; [reflexivity|].
  destruct (mapped_view_outlives_the_name (Typecode "B") [PyInt 7; PyInt 300]
              "t" "/t" c_ubyte empty_world)
    as (creator & w1 & opener & w2 & w3 & Hc & Ho & Hr & _ & _ & Hnf & Hread);
    [done | reflexivity | reflexivity | reflexivity | reflexivity
    | repeat constructor; eexists; reflexivity |].
  exists creator, w1, opener, w2, w3.
  destruct (Hread 0%nat (PyInt 7) eq_refl) as (e0 & He0 & Hg0).
  destruct (Hread 1%nat (PyInt 300) eq_refl) as (e1 & He1 & Hg1).
  apply Ok_inj in He0, He1. subst e0 e1.
  by split_and!.
Defined.

(** X6. An opener that comes and goes leaves no trace.  Opening a segment
    for exactly the byte size it has and releasing the array again gives
    back the state before the opening: the name, the contents, every other
    mapping and the error stream are as they were. *)
Theorem open_then_release_restores_the_state
    (tc : typecode_or_type) (n : Z) (tag nm : string) (t : ctype)
    (o : nat) (bytes : list Z) (w : world) :
  normalized_tag tag w = (Ok nm, w) ->
  resolve_type tc = Some t ->
  0 < n -> n * sizeof t < maxsize ->
  shm_names w !! nm = Some o ->
  shm_objects w !! o = Some bytes ->
  Z.of_nat (length bytes) = n * sizeof t ->
  exists opener w1,
    ShmemRawArray tc (SizeInt n) tag false w = (Ok opener, w1)
    /\ w1 <> w
    /\ ctypes_array_release opener w1 = (Ok tt, w).
Proof.
  intros Htag Ht Hn Hsz Hnm Ho Hlen.
  assert (mappings w !! fresh (dom (mappings w)) = None) as Hfresh
    by apply not_elem_of_dom, is_fresh.
  eexists _, _. split; [by eapply ShmemRawArray_open_matching|].
  split.
  { intros E. apply (f_equal mappings) in E. revert E. wsimpl. intros E.
    apply (f_equal (fun m => m !! fresh (dom (mappings w)))) in E.
    rewrite lookup_insert_eq, Hfresh in E. done. }
  unfold ctypes_array_release. cbn [_buffer]. rewrite release_full. wsimpl.
  rewrite (delete_insert_id (mappings w)) by done.
  by destruct w.
Qed.

Lemma open_then_release_restores_the_state_witness :
  exists opener w1,
    ShmemRawArray (Typecode "h") (SizeInt 1) "seg" false world_with_segment
    = (Ok opener, w1)
    /\ w1 <> world_with_segment
    /\ ctypes_array_release opener w1 = (Ok tt, world_with_segment).
Proof.
  apply (open_then_release_restores_the_state (Typecode "h") 1 "seg" "/seg"
           c_short 0%nat [0; 0] world_with_segment);
    (reflexivity || lia).
Defined.

(** A store through an array changes the object the array is mapped on, and
    nothing else. *)
Lemma Array_setitem_ok_inv obj i v w w' :
  Array_setitem obj i v w = (Ok tt, w') ->
  exists o len bytes',
    mappings w !! a_address obj = Some (o, len)
    /\ w' = set_shm_objects <[o := bytes']> w.
Proof.
  unfold Array_setitem. destruct (_ || _); [done|].
  unfold bind, lift_result. destruct (setfunc _ _) as [bs|]; [|done].
  intros H. apply mem_write_ok_inv in H.
  destruct H as (o & len & bytes & Hm & _ & _ & _ & ->). by eexists _, _, _.
Qed.

Lemma write_leaves_other_objects obj1 obj2 i v w w' o1 o2 L1 L2 :
  mappings w !! a_address obj1 = Some (o1, L1) ->
  mappings w !! a_address obj2 = Some (o2, L2) ->
  o1 <> o2 ->
  Array_setitem obj1 i v w = (Ok tt, w') ->
  mappings w' = mappings w
  /\ shm_objects w' !! o2 = shm_objects w !! o2
  /\ forall j, fst (Array_getitem obj2 j w') = fst (Array_getitem obj2 j w).
Proof.
  intros Hm1 Hm2 Hne Hset.
  destruct (Array_setitem_ok_inv _ _ _ _ _ Hset) as (o & len & bytes' & Hm & ->).
  rewrite Hm1 in Hm. simplify_eq. wsimpl.
  assert (<[o := bytes']> (shm_objects w) !! o2 = shm_objects w !! o2) as Hsame
    by by rewrite lookup_insert_ne.
  split; [done|]. split; [done|]. intros j.
  unfold Array_getitem. destruct (_ || _); [done|].
  unfold bind, mem_read. wsimpl. rewrite Hm2, Hsame.
  destruct (shm_objects w !! o2); [|done]. by destruct (_ && _).
Qed.

(** X7. A name can be used again after its owner is gone.  Once the creator
    of a segment has been released, a creation under the same name succeeds
    and gives a zero-filled segment of its own: an array that was opened on
    the old segment keeps reading the old values, also after stores through
    the new array. *)
Theorem recreation_gives_a_separate_segment
    (tc tc' : typecode_or_type) (values : list pyval) (n' : Z)
    (tag nm : string) (t t' : ctype) (w : world) :
  values <> [] ->
  normalized_tag tag w = (Ok nm, w) ->
  resolve_type tc = Some t ->
  Z.of_nat (length values) * sizeof t < maxsize ->
  shm_names w !! nm = None ->
  Forall (fun v => exists e, setfunc t v = Ok e) values ->
  resolve_type tc' = Some t' ->
  0 < n' -> n' * sizeof t' < maxsize ->
  exists creator w1 opener w2 w3 second w4,
    ShmemRawArray tc (Initializer values) tag true w = (Ok creator, w1)
    /\ ShmemRawArray tc (SizeInt (Z.of_nat (length values))) tag false w1
       = (Ok opener, w2)
    /\ ctypes_array_release creator w2 = (Ok tt, w3)
    /\ ShmemRawArray tc' (SizeInt n') tag true w3 = (Ok second, w4)
    /\ (forall j, 0 <= j < n' ->
          Array_getitem second j w4
          = (Ok (getfunc t' (replicate (Z.to_nat (sizeof t')) 0)), w4))
    /\ (forall j v' e', 0 <= j < n' -> setfunc t' v' = Ok e' ->
          exists w5,
            Array_setitem second j v' w4 = (Ok tt, w5)
            /\ Array_getitem second j w5 = (Ok (getfunc t' e'), w5)
            /\ forall (i : nat) v, values !! i = Some v ->
                 exists e, setfunc t v = Ok e
                   /\ Array_getitem opener (Z.of_nat i) w4 = (Ok (getfunc t e), w4)
                   /\ Array_getitem opener (Z.of_nat i) w5 = (Ok (getfunc t e), w5)).
Proof.
  intros Hne Htag Ht Hsz Hfree Hall Ht' Hn' Hsz'.
  destruct (Forall_stored _ _ Hall) as [es Hes].
  destruct (stored_lengths _ _ _ Hes) as (Hlens & Hlen & _).
  pose proof (sizeof_pos t') as Hs'.
  pose proof (create_then_open tc values es tag nm t w Htag Ht Hne Hsz Hfree Hes)
    as H.
  cbv zeta in H. destruct H as (Hcreate & Hopen & Hrelease & _).
  set (n := Z.of_nat (length values)) in *.
  set (o := fresh (dom (shm_objects w))) in *.
  set (mb := fresh (dom (<[fresh (dom (mappings w)) := (o, n * sizeof t)]>
                           (mappings w)))) in *.
  set (w3 := World (shm_names w) (<[o := concat es]> (shm_objects w))
               (fd_table w) (<[mb := (o, n * sizeof t)]> (mappings w))
               (stderr w)) in *.
  pose proof (ShmemRawArray_create_by_count tc' n' tag w3 nm t') as Hsecond.
  cbv zeta in Hsecond.
  set (o' := fresh (dom (shm_objects w3))) in *.
  set (mc := fresh (dom (mappings w3))) in *.
  set (zeros := replicate (Z.to_nat (n' * sizeof t')) 0) in *.
  set (w4 := World (<[nm := o']> (shm_names w3)) (<[o' := zeros]> (shm_objects w3))
               (fd_table w3) (<[mc := (o', n' * sizeof t')]> (mappings w3))
               (stderr w3)) in *.
  assert (o' <> o) as Hoo by apply fresh_after_insert.
  assert (mc <> mb) as Hmm by apply fresh_after_insert.
  assert (mappings w4 !! mb = Some (o, n * sizeof t)) as Hmb.
  { unfold w4, w3. wsimpl. rewrite lookup_insert_ne by done.
    apply lookup_insert_eq. }
  assert (mappings w4 !! mc = Some (o', n' * sizeof t')) as Hmc
    by (unfold w4; wsimpl; apply lookup_insert_eq).
  assert (shm_objects w4 !! o = Some (concat es)) as Ho.
  { unfold w4, w3. wsimpl. rewrite lookup_insert_ne by done.
    apply lookup_insert_eq. }
  assert (shm_objects w4 !! o' = Some zeros) as Ho'
    by (unfold w4; wsimpl; apply lookup_insert_eq).
  assert (Z.of_nat (length zeros) = n' * sizeof t') as Hzeros
    by (unfold zeros; rewrite length_replicate; lia).
  eexists _, _, _, _, _, (array_on t' n' mc nm true), w4.
  split; [exact Hcreate|]. split; [exact Hopen|]. split; [exact Hrelease|].
  split.
  { apply Hsecond; [by eapply normalized_tag_any_state | done..]. }
  assert (forall (i : nat) v, values !! i = Some v ->
            exists e, setfunc t v = Ok e /\ es !! i = Some e
              /\ Array_getitem (array_on t n mb nm false) (Z.of_nat i) w4
                 = (Ok (getfunc t e), w4)) as Hold.
  { intros i v Hv. destruct (stored_element _ _ _ _ _ Hes Hv) as (e & He & Hset).
    exists e. split; [done|]. split; [done|].
    apply (Array_getitem_chunk (array_on t n mb nm false) i w4 o es e);
      unfold array_on; cbn [a_address a_length a_type];
      [done | done | done | by rewrite Hlen | done]. }
  split.
  - intros j Hj.
    erewrite (Array_getitem_ok (array_on t' n' mc nm true) j w4 o'
                (n' * sizeof t') zeros);
      unfold array_on; cbn [a_address a_type a_length]; [| done | done | lia | done].
    do 3 f_equal. unfold zeros. rewrite drop_replicate, take_replicate.
    f_equal. nia.
  - intros j v' e' Hj Hv'.
    edestruct (shared_write_read (array_on t' n' mc nm true)
                 (array_on t' n' mc nm true) t' o' (n' * sizeof t') zeros
                 w4 j v' e')
      as (w5 & Hset & _ & Hget & _); unfold array_on;
      cbn [a_type a_length a_address]; try done; try lia.
    unfold array_on in *. cbn [a_type a_length a_address] in *.
    exists w5. split; [done|]. split; [apply Hget; lia|].
    intros i v Hv. destruct (Hold i v Hv) as (e & He & Hi & Hread).
    exists e. split; [done|]. split; [done|].
    edestruct (write_leaves_other_objects
                 {| a_type := t'; a_length := n'; a_address := mc;
                    _buffer := Some (handle (Some {| name := nm; fd := -1 |})
                                       (Some mc) true (n' * sizeof t')) |}
                 {| a_type := t; a_length := n; a_address := mb;
                    _buffer := Some (handle (Some {| name := nm; fd := -1 |})
                                       (Some mb) false (n * sizeof t)) |}
                 j v' w4 w5 o' o) as (Hmaps & Hobj & _);
      [exact Hmc | exact Hmb | done | exact Hset |].
    apply (Array_getitem_chunk
             {| a_type := t; a_length := n; a_address := mb;
                _buffer := Some (handle (Some {| name := nm; fd := -1 |})
                                   (Some mb) false (n * sizeof t)) |}
             i w5 o es e); cbn [a_address a_length a_type];
      [by rewrite Hmaps | by rewrite Hobj | done | by rewrite Hlen | done].
Qed.

Lemma recreation_gives_a_separate_segment_witness :
  normalized_tag "t" empty_world = (Ok "/t", empty_world)
  /\ exists creator w1 opener w2 w3 second w4 w5,
       ShmemRawArray (Typecode "B") (Initializer [PyInt 7]) "t" true empty_world
       = (Ok creator, w1)
       /\ ShmemRawArray (Typecode "B") (SizeInt 1) "t" false w1 = (Ok opener, w2)
       /\ ctypes_array_release creator w2 = (Ok tt, w3)
       /\ ShmemRawArray (Typecode "H") (SizeInt 2) "t" true w3 = (Ok second, w4)
       /\ Array_getitem second 0 w4 = (Ok (PyInt 0), w4)
       /\ Array_setitem second 0 (PyInt 515) w4 = (Ok tt, w5)
       /\ Array_getitem second 0 w5 = (Ok (PyInt 515), w5)
       /\ Array_getitem opener 0 w5 = (Ok (PyInt 7), w5).
Proof.
  split; [reflexivity|].
  destruct (recreation_gives_a_separate_segment (Typecode "B") (Typecode "H")
              [PyInt 7] 2 "t" "/t" c_ubyte c_ushort empty_world)
    as (creator & w1 & opener & w2 & w3 & second & w4
        & Hc & Ho & Hr & Hs & Hzero & Hwrite);
    [done | reflexivity | reflexivity | reflexivity | reflexivity
    | repeat constructor; eexists; reflexivity | reflexivity | lia
    | reflexivity |].
  destruct (Hwrite 0 (PyInt 515) (le_bytes 2 515)) as (w5 & Hset & Hget & Hold);
    [lia | reflexivity |].
  destruct (Hold 0%nat (PyInt 7) eq_refl) as (e & He & _ & Hread).
  apply Ok_inj in He. subst e.
  exists creator, w1, opener, w2, w3, second, w4, w5.
  split_and!; try done. rewrite Hzero by lia. reflexivity.
Defined.

(** ** Errors in the arguments *)



(** ** Names *)




(** ** Dtypes by name and by object *)


(** ** Handles over a segment that is resized *)

(** X11. The size check of [get_address] holds for a handle when it is
    built, and stops holding for it once the segment is opened for another
    byte size: the later handle passes the check, and the earlier one, whose
    mapping now lies over a file of another size, fails it with
    [AssertionError]. *)
Theorem later_opening_invalidates_earlier_handle
    (tc tc' : typecode_or_type) (n n' : Z) (tag nm : string) (t t' : ctype)
    (w : world) :
  normalized_tag tag w = (Ok nm, w) ->
  resolve_type tc = Some t -> resolve_type tc' = Some t' ->
  0 < n -> n * sizeof t < maxsize ->
  0 < n' -> n' * sizeof t' < maxsize ->
  n' * sizeof t' <> n * sizeof t ->
  shm_names w !! nm = None ->
  exists creator buffer w1 opener buffer' w2,
    ShmemRawArray tc (SizeInt n) tag true w = (Ok creator, w1)
    /\ _buffer creator = Some buffer
    /\ get_address buffer w1 = (Ok (a_address creator), w1)
    /\ ShmemRawArray tc' (SizeInt n') tag false w1 = (Ok opener, w2)
    /\ _buffer opener = Some buffer'
    /\ get_address buffer' w2 = (Ok (a_address opener), w2)
    /\ get_address buffer w2 = (Raise AssertionError, w2).
Proof.
  intros Htag Ht Ht' Hn Hsz Hn' Hsz' Hdiff Hfree.
  pose proof (sizeof_pos t). pose proof (sizeof_pos t').
  pose proof (ShmemRawArray_create_by_count tc n tag w nm t Htag Ht Hn Hsz Hfree)
    as Hcreate. cbv zeta in Hcreate.
  set (o := fresh (dom (shm_objects w))) in *.
  set (ma := fresh (dom (mappings w))) in *.
  set (zeros := replicate (Z.to_nat (n * sizeof t)) 0) in *.
  set (w1 := World (<[nm := o]> (shm_names w)) (<[o := zeros]> (shm_objects w))
               (fd_table w) (<[ma := (o, n * sizeof t)]> (mappings w))
               (stderr w)) in *.
  pose proof (ShmemRawArray_open_by_count tc' n' tag w1 nm t' o zeros) as Hopen.
  cbv zeta in Hopen.
  set (mb := fresh (dom (mappings w1))) in *.
  set (bytes := resize (Z.to_nat (n' * sizeof t')) 0 zeros) in *.
  set (w2 := World (shm_names w1) (<[o := bytes]> (shm_objects w1)) (fd_table w1)
               (<[mb := (o, n' * sizeof t')]> (mappings w1)) (stderr w1)) in *.
  assert (mb <> ma) as Hab by apply fresh_after_insert.
  eexists _, _, w1, _, _, w2.
  split; [exact Hcreate|]. split; [reflexivity|]. cbn [a_address].
  split.
  { erewrite (get_address_ok ma true _ _ w1 o (n * sizeof t) zeros);
      [| unfold w1; wsimpl; apply lookup_insert_eq..].
    unfold zeros. by rewrite length_replicate, Z2Nat.id, Z.eqb_refl by lia. }
  split.
  { apply Hopen; [by eapply normalized_tag_any_state | done | done | done
                 | unfold w1; wsimpl; apply lookup_insert_eq..]. }
  split; [reflexivity|]. cbn [a_address].
  split.
  - erewrite (get_address_ok mb false _ _ w2 o (n' * sizeof t') bytes);
      [| unfold w2; wsimpl; apply lookup_insert_eq..].
    unfold bytes. by rewrite length_resize, Z2Nat.id, Z.eqb_refl by lia.
  - erewrite (get_address_ok ma true _ _ w2 o (n * sizeof t) bytes).
    + unfold bytes. rewrite length_resize, Z2Nat.id by lia.
      by destruct (Z.eqb_spec (n' * sizeof t') (n * sizeof t)).
    + unfold w2, w1. wsimpl. rewrite lookup_insert_ne by done.
      apply lookup_insert_eq.
    + unfold w2. wsimpl. apply lookup_insert_eq.
Qed.

Lemma later_opening_invalidates_earlier_handle_witness :
  normalized_tag "seg" empty_world = (Ok "/seg", empty_world)
  /\ exists creator buffer w1 opener w2,
       ShmemRawArray (Typecode "d") (SizeInt 2) "seg" true empty_world
       = (Ok creator, w1)
       /\ _buffer creator = Some buffer
       /\ get_address buffer w1 = (Ok (a_address creator), w1)
       /\ ShmemRawArray (Typecode "f") (SizeInt 3) "seg" false w1 = (Ok opener, w2)
       /\ get_address buffer w2 = (Raise AssertionError, w2).
Proof.
  split; [reflexivity|].
  destruct (later_opening_invalidates_earlier_handle (Typecode "d") (Typecode "f")
              2 3 "seg" "/seg" c_double c_float empty_world)
    as (creator & buffer & w1 & opener & buffer' & w2
        & Hc & Hb & Hg & Ho & _ & _ & Hbad);
    [reflexivity | reflexivity | reflexivity | lia | reflexivity | lia
    | reflexivity | done | reflexivity |].
  by exists creator, buffer, w1, opener, w2.
Defined.

(** ** Shaped views over a shared segment *)

Lemma product_pos (shape : list Z) :
  Forall (fun d => 0 < d) shape -> 0 < product shape.
Proof.
  induction 1 as [|d l Hd _ IH]; [done|].
  unfold product in *. cbn [fold_right]. nia.
Qed.

Lemma np_prod_in_range (shape : list Z) :
  0 <= product shape < 2 ^ 63 -> np_prod shape = product shape.
Proof.
  intros H. unfold np_prod, wrap64. rewrite Z.mod_small; lia.
Qed.

Lemma reshape_flat obj (shape : list Z) :
  Forall (fun d => 0 < d) shape -> a_length obj = product shape ->
  reshape (as_array obj) shape = Ok {| nd_base := obj; nd_shape := shape |}.
Proof.
  intros Hpos Hlen.
  assert (Forall (fun d => 0 <= d) shape) as Hnn
    by (eapply Forall_impl; [exact Hpos|]; cbn; lia).
  destruct (filter_nonneg_all _ Hnn) as [Hall Hnil].
  unfold reshape, as_array. cbn [nd_shape nd_base]. rewrite Hall, Hnil.
  cbn [length]. unfold product at 1. cbn [fold_right].
  rewrite Hlen, Z.mul_1_r, Z.eqb_refl. done.
Qed.

(** X12. For a dtype with an element type, a shape of positive dimensions
    and a free name, the shaped view is created and then opened under the
    same arguments: both views have the shape asked for over a flat array of
    as many elements as its product, the fresh memory reads as zero, and an
    element assigned through the creator's array is read through the
    opener's. *)
Theorem shaped_views_share_memory
    (dtype : dtype_key) (t : ctype) (shape : list Z) (tag nm : string)
    (w : world) :
  normalized_tag tag w = (Ok nm, w) ->
  dict_get NP_TO_C_TYPE dtype None = Some t ->
  Forall (fun d => 0 < d) shape ->
  product shape * sizeof t < maxsize ->
  shm_names w !! nm = None ->
  exists creator w1 opener w2,
    NpShmemArray dtype shape tag true w = (Ok creator, w1)
    /\ NpShmemArray dtype shape tag false w1 = (Ok opener, w2)
    /\ nd_shape creator = shape /\ nd_shape opener = shape
    /\ a_type (nd_base creator) = t /\ a_type (nd_base opener) = t
    /\ a_length (nd_base creator) = product shape
    /\ a_length (nd_base opener) = product shape
    /\ (forall i, 0 <= i < product shape ->
          Array_getitem (nd_base opener) i w2
          = (Ok (getfunc t (replicate (Z.to_nat (sizeof t)) 0)), w2))
    /\ (forall i v e, 0 <= i < product shape -> setfunc t v = Ok e ->
          exists w3,
            Array_setitem (nd_base creator) i v w2 = (Ok tt, w3)
            /\ Array_getitem (nd_base opener) i w3 = (Ok (getfunc t e), w3)).
Proof.
  intros Htag Hd Hpos Hsz Hfree. pose proof (sizeof_pos t) as Hs.
  pose proof (product_pos _ Hpos) as Hn.
  assert (np_prod shape = product shape) as Hprod.
  { apply np_prod_in_range. unfold maxsize in Hsz. nia. }
  set (n := product shape) in *.
  pose proof (ShmemRawArray_create_by_count (Ctype t) n tag w nm t Htag eq_refl
                Hn Hsz Hfree) as Hcreate. cbv zeta in Hcreate.
  set (o := fresh (dom (shm_objects w))) in *.
  set (ma := fresh (dom (mappings w))) in *.
  set (zeros := replicate (Z.to_nat (n * sizeof t)) 0) in *.
  set (w1 := World (<[nm := o]> (shm_names w)) (<[o := zeros]> (shm_objects w))
               (fd_table w) (<[ma := (o, n * sizeof t)]> (mappings w))
               (stderr w)) in *.
  assert (Z.of_nat (length zeros) = n * sizeof t) as Hlen
    by (unfold zeros; rewrite length_replicate; lia).
  pose proof (ShmemRawArray_open_matching (Ctype t) n tag w1 nm t o zeros)
    as Hopen. cbv zeta in Hopen.
  set (mb := fresh (dom (mappings w1))) in *.
  set (w2 := World (shm_names w1) (shm_objects w1) (fd_table w1)
               (<[mb := (o, n * sizeof t)]> (mappings w1)) (stderr w1)) in *.
  assert (mb <> ma) as Hab by apply fresh_after_insert.
  assert (mappings w2 !! ma = Some (o, n * sizeof t)) as Hma.
  { unfold w2, w1. wsimpl. rewrite lookup_insert_ne by done.
    apply lookup_insert_eq. }
  assert (mappings w2 !! mb = Some (o, n * sizeof t)) as Hmb
    by (unfold w2; wsimpl; apply lookup_insert_eq).
  assert (shm_objects w2 !! o = Some zeros) as Ho
    by (unfold w2, w1; wsimpl; apply lookup_insert_eq).
  exists {| nd_base := array_on t n ma nm true; nd_shape := shape |}, w1,
    {| nd_base := array_on t n mb nm false; nd_shape := shape |}, w2.
  cbn [nd_base nd_shape]. unfold array_on. cbn [a_type a_length].
  split.
  { unfold NpShmemArray. rewrite Hd. unfold bind. rewrite Hprod, Hcreate.
    unfold holding, lift_result. by rewrite reshape_flat. }
  split.
  { unfold NpShmemArray. rewrite Hd. unfold bind. rewrite Hprod, Hopen;
      [| by eapply normalized_tag_any_state | done | done | done
       | unfold w1; wsimpl; apply lookup_insert_eq
       | unfold w1; wsimpl; apply lookup_insert_eq | done ].
    unfold holding, lift_result. by rewrite reshape_flat. }
  split_and!; try done.
  - intros i Hi. erewrite Array_getitem_ok; cbn [a_address a_type a_length];
      [| exact Hmb | exact Ho | lia | done].
    do 3 f_equal. unfold zeros. rewrite drop_replicate, take_replicate.
    f_equal. nia.
  - intros i v e Hi Hv.
    edestruct (shared_write_read
                 {| a_type := t; a_length := n; a_address := ma;
                    _buffer := Some (handle (Some {| name := nm; fd := -1 |})
                                       (Some ma) true (n * sizeof t)) |}
                 {| a_type := t; a_length := n; a_address := mb;
                    _buffer := Some (handle (Some {| name := nm; fd := -1 |})
                                       (Some mb) false (n * sizeof t)) |}
                 t o (n * sizeof t) zeros w2 i v e)
      as (w3 & Hset & _ & Hget & _); cbn [a_type a_length a_address];
      try done; try lia.
    cbn [a_type a_length a_address] in *.
    exists w3. split; [done|]. apply Hget. lia.
Qed.

Lemma shaped_views_share_memory_witness :
  normalized_tag "m" empty_world = (Ok "/m", empty_world)
  /\ exists creator w1 opener w2 w3,
       NpShmemArray (DtypeName "int16") [2; 3] "m" true empty_world
       = (Ok creator, w1)
       /\ NpShmemArray (DtypeName "int16") [2; 3] "m" false w1 = (Ok opener, w2)
       /\ nd_shape opener = [2; 3]
       /\ a_length (nd_base opener) = 6
       /\ Array_setitem (nd_base creator) 5 (PyInt (-2)) w2 = (Ok tt, w3)
       /\ Array_getitem (nd_base opener) 5 w3 = (Ok (PyInt (-2)), w3).
Proof.
  split; [reflexivity|].
  destruct (shaped_views_share_memory (DtypeName "int16") c_short [2; 3] "m" "/m"
              empty_world)
    as (creator & w1 & opener & w2 & Hc & Ho & _ & Hshape & _ & _ & _ & Hlen
        & _ & Hwrite);
    [reflexivity | reflexivity | repeat constructor; lia | reflexivity
    | reflexivity |].
  destruct (Hwrite 5 (PyInt (-2)) (le_bytes 2 (-2))) as (w3 & Hset & Hget);
    [by cbn | reflexivity |].
  exists creator, w1, opener, w2, w3. by split_and!.
Defined.

(** ** An initializer given on opening *)

Lemma ShmemRawArray_open_by_initializer tc values es tag w nm t o bytes :
  normalized_tag tag w = (Ok nm, w) -> resolve_type tc = Some t ->
  values <> [] -> Z.of_nat (length values) * sizeof t < maxsize ->
  shm_names w !! nm = Some o -> shm_objects w !! o = Some bytes ->
  Forall2 (fun v e => setfunc t v = Ok e) values es ->
  let n := Z.of_nat (length values) in
  let m := fresh (dom (mappings w)) in
  ShmemRawArray tc (Initializer values) tag false w =
    (Ok (array_on t n m nm false),
     World (shm_names w) (<[o := concat es]> (shm_objects w)) (fd_table w)
           (<[m := (o, n * sizeof t)]> (mappings w)) (stderr w)).
Proof.
  intros Htag Ht Hne Hsz Hname Hobj Hes n m. pose proof (sizeof_pos t).
  assert (0 < n) by (destruct values; [done | unfold n; cbn [length]; lia]).
  rewrite ShmemRawArray_unfold, Htag. cbn [count_of]. fold n.
  rewrite (type_mul_ok _ t) by (done || lia). cbn [ctypes_sizeof].
  erewrite new_open_existing by (done || lia).
  unfold holding, bind at 1.
  erewrite get_address_ok; wsimpl; [| apply lookup_insert_eq | apply lookup_insert_eq].
  rewrite length_resize, Z2Nat.id, Z.eqb_refl by lia.
  unfold bind at 1, lift_result at 1. cbn [from_address].
  unfold bind at 1, Array_init.
  match goal with
  | |- context [Array_init_from ?ob _ _ _] =>
      erewrite (Array_init_from_ok ob o (n * sizeof t) values es Hes 0 []
                  (resize (Z.to_nat (n * sizeof t)) 0 bytes))
  end; wsimpl; cbn [a_type a_length set_buffer app length Z.of_nat].
  - unfold ret, array_on. rewrite insert_insert_eq. fold n.
    rewrite drop_ge, app_nil_r by (rewrite length_resize; lia). done.
  - apply lookup_insert_eq.
  - apply lookup_insert_eq.
  - lia.
  - lia.
  - fold n. lia.
  - rewrite length_resize. fold n. lia.
  - fold n. lia.
Qed.

(** X13. An initializer is stored on opening as it is on creation.  Opening
    an existing segment with an initializer replaces the whole contents of
    the segment by the stored forms of the values, whatever the segment held
    and whatever its size was: the new array reads them, and so does every
    array of the same element type and count that was mapped on the segment
    before. *)
Theorem initializer_on_opening_overwrites
    (tc : typecode_or_type) (values : list pyval) (tag nm : string)
    (t : ctype) (o : nat) (bytes : list Z) (w : world) :
  values <> [] ->
  normalized_tag tag w = (Ok nm, w) ->
  resolve_type tc = Some t ->
  Z.of_nat (length values) * sizeof t < maxsize ->
  shm_names w !! nm = Some o ->
  shm_objects w !! o = Some bytes ->
  Forall (fun v => exists e, setfunc t v = Ok e) values ->
  exists opener w' es,
    ShmemRawArray tc (Initializer values) tag false w = (Ok opener, w')
    /\ Forall2 (fun v e => setfunc t v = Ok e) values es
    /\ shm_objects w' !! o = Some (concat es)
    /\ shm_names w' = shm_names w
    /\ forall (i : nat) v, values !! i = Some v ->
         exists e, setfunc t v = Ok e
           /\ Array_getitem opener (Z.of_nat i) w' = (Ok (getfunc t e), w')
           /\ forall other,
                a_type other = t ->
                a_length other = Z.of_nat (length values) ->
                mappings w !! a_address other
                = Some (o, Z.of_nat (length values) * sizeof t) ->
                Array_getitem other (Z.of_nat i) w' = (Ok (getfunc t e), w').
Proof.
  intros Hne Htag Ht Hsz Hname Hobj Hall.
  destruct (Forall_stored _ _ Hall) as [es Hes].
  destruct (stored_lengths _ _ _ Hes) as (Hlens & Hlen & _).
  pose proof (ShmemRawArray_open_by_initializer tc values es tag w nm t o bytes
                Htag Ht Hne Hsz Hname Hobj Hes) as Hopen.
  cbv zeta in Hopen.
  assert (mappings w !! fresh (dom (mappings w)) = None) as Hfresh
    by apply not_elem_of_dom, is_fresh.
  eexists _, _, es. split; [exact Hopen|]. split; [done|]. wsimpl.
  split; [apply lookup_insert_eq|]. split; [done|].
  intros i v Hv. destruct (stored_element _ _ _ _ _ Hes Hv) as (e & He & Hset).
  exists e. split; [done|]. split.
  - apply (Array_getitem_chunk (array_on t _ _ nm false) i _ o es e);
      unfold array_on; cbn [a_address a_length a_type]; wsimpl;
      [apply lookup_insert_eq | apply lookup_insert_eq | done
      | by rewrite Hlen | done].
  - intros other Hty Hcount Hmap. rewrite <- Hty.
    apply (Array_getitem_chunk other i _ o es e); wsimpl.
    + rewrite lookup_insert_ne by (intros E; rewrite <- E, Hfresh in Hmap; done).
      by rewrite Hcount, Hty.
    + apply lookup_insert_eq.
    + by rewrite Hty.
    + by rewrite Hcount, Hlen.
    + done.
Qed.

Lemma initializer_on_opening_overwrites_witness :
  exists opener w',
    ShmemRawArray (Typecode "B") (Initializer [PyInt 5; PyInt 6; PyInt 7]) "seg"
      false world_with_segment = (Ok opener, w')
    /\ shm_objects w' !! 0%nat = Some [5; 6; 7]
    /\ Array_getitem opener 2 w' = (Ok (PyInt 7), w').
Proof.
  destruct (initializer_on_opening_overwrites (Typecode "B")
              [PyInt 5; PyInt 6; PyInt 7] "seg" "/seg" c_ubyte 0%nat [0; 0]
              world_with_segment)
    as (opener & w' & es & Hopen & Hes & Hobj & _ & Hread);
    [done | reflexivity | reflexivity | reflexivity | reflexivity | reflexivity
    | repeat constructor; eexists; reflexivity |].
  destruct (Hread 2%nat (PyInt 7) eq_refl) as (e & He & Hget & _).
  apply Ok_inj in He. subst e.
  exists opener, w'. split; [done|]. split; [|exact Hget].
  rewrite Hobj. f_equal.
  repeat match goal with
         | H : Forall2 _ _ _ |- _ => inversion H; subst; clear H
         end.
  repeat match goal with
         | H : setfunc _ _ = Ok _ |- _ => apply Ok_inj in H; subst
         end.
  reflexivity.
Defined.
